(** * sir-robin: the code-jam extension ([bot/exts/code_jams])

    A shallow embedding of [_cog.py] (the [CodeJams] commands) and of
    [_views.py] (the confirmation views), with the properties of the
    written specification stated on it.

    Conventions.
    - A Python [str] is the [string] of its UTF-8 encoding: an ASCII
      character is one byte below 128, any other character is a run of
      bytes from 128 on. Equality, concatenation and the replacement of
      one ASCII character by another are then those of the bytes.
    - [str.title] depends on the Unicode character database, which is no
      part of the sources: it is a parameter, [title], of [team_name] and
      of what uses it. What it does to a string of ASCII characters is
      written out as [Py.ascii_title].
    - A Python [dict] keyed by strings is a [gmap string _].
    - A command is a function on an explicit state (the chat platform and
      the management service) that also yields the list of its effects. *)

From Stdlib Require Import ZArith Ascii String List Bool Lia.
From stdpp Require Import base gmap strings list pretty.

Local Open Scope string_scope.
Local Open Scope list_scope.
Local Open Scope Z_scope.

(** ** Python strings *)

Module Py.

Definition is_lower (c : ascii) : bool :=
  let n := N_of_ascii c in ((97 <=? n) && (n <=? 122))%N.

Definition is_upper (c : ascii) : bool :=
  let n := N_of_ascii c in ((65 <=? n) && (n <=? 90))%N.

(** The cased characters among the ASCII ones: the letters. *)
Definition is_letter (c : ascii) : bool := is_lower c || is_upper c.

Definition to_upper (c : ascii) : ascii :=
  if is_lower c then ascii_of_N (N_of_ascii c - 32) else c.

Definition to_lower (c : ascii) : ascii :=
  if is_upper c then ascii_of_N (N_of_ascii c + 32) else c.

(** [s.upper()], as far as its ASCII characters go: the other bytes are
    kept. The result is only ever compared with "Y". *)
Fixpoint upper (s : string) : string :=
  match s with
  | EmptyString => EmptyString
  | String c s' => String (to_upper c) (upper s')
  end.

(** [s.replace(old, new)] for one-character [old] and [new]. *)
Fixpoint replace (old new : ascii) (s : string) : string :=
  match s with
  | EmptyString => EmptyString
  | String c s' =>
      String (if Ascii.eqb c old then new else c) (replace old new s')
  end.

(** A character of the ASCII range. *)
Definition is_ascii_char (c : ascii) : bool := (N_of_ascii c <? 128)%N.

(** [s.isascii()] *)
Fixpoint is_ascii (s : string) : bool :=
  match s with
  | EmptyString => true
  | String c s' => is_ascii_char c && is_ascii s'
  end.

(** The loop of [str.title] on a string of ASCII characters: a character
    that follows a letter is lowercased, any other one is uppercased;
    [previous_is_cased] is the loop's flag. *)
Fixpoint ascii_do_title (previous_is_cased : bool) (s : string) : string :=
  match s with
  | EmptyString => EmptyString
  | String c s' =>
      String (if previous_is_cased then to_lower c else to_upper c)
             (ascii_do_title (is_letter c) s')
  end.

(** [s.title()] for [s] of ASCII characters. *)
Definition ascii_title (s : string) : string := ascii_do_title false s.

(** What is known of [str.title]: on the strings of ASCII characters it
    is [ascii_title]. Nothing is said of it on the other strings, where
    it may change the length and need not give its result again when
    applied twice. *)
Definition title_on_ascii (title : string -> string) : Prop :=
  forall s, is_ascii s = true -> title s = ascii_title s.

(** Exceptions that leave a command. *)
Inductive Exc : Type :=
| ValueError
| KeyError
| TypeError
| AttributeError.

End Py.

(** ** The chat platform's objects *)

Record Role : Type := mkRole { role_id : Z; role_name : string }.

Record Member : Type := mkMember { member_id : Z; member_name : string }.

(** [overwrites] lists the ids of the members with a permission overwrite
    on the channel; [is_text] tells a [discord.TextChannel] from the other
    channel kinds. *)
Record Channel : Type := mkChannel {
  channel_id : Z;
  channel_name : string;
  is_text : bool;
  overwrites : list Z
}.

Record Category : Type := mkCategory {
  category_id : Z;
  category_name : string;
  channels : list Channel
}.

Record Guild : Type := mkGuild {
  guild_roles : list Role;
  guild_members : list Member;
  guild_categories : list Category
}.

(** [guild.get_role(id)] *)
Definition get_role (g : Guild) (id : Z) : option Role :=
  find (fun r => (role_id r =? id)%Z) (guild_roles g).

(** [get_or_fetch_member(guild, id)]: the member, or [None]. *)
Definition get_or_fetch_member (g : Guild) (id : Z) : option Member :=
  find (fun m => (member_id m =? id)%Z) (guild_members g).

(** [member.mention] *)
Definition mention (id : Z) : string := "<@" +:+ pretty id +:+ ">".

(** ** [CodeJams.team_name] *)

(** [channel.name.replace("-", " ").title()], with [title] for
    [str.title]. *)
Definition team_name (title : string -> string) (channel : Channel) : string :=
  title (Py.replace "-" " " (channel_name channel)).

(** The character that the display name has where a slug of ASCII
    characters has [c], [prev] being the slug's character just before it,
    if any. *)
Definition display_char (prev : option ascii) (c : ascii) : ascii :=
  if Ascii.eqb c "-" then " "%char
  else match prev with
       | Some p => if Py.is_letter p then Py.to_lower c else Py.to_upper c
       | None => Py.to_upper c
       end.

(** The character of [s] just before position [i]. *)
Definition char_before (s : string) (i : nat) : option ascii :=
  match i with
  | O => None
  | S j => String.get j s
  end.

(** ** The management service

    Modelled from the spec: the management API is a remote service and its
    client ([botcore.site_api.APIClient]) is a dependency, so neither is
    part of the sources. The store holds the [Team] records of the data
    model; the five requests are the ones the specification lists as
    consumed, and they answer 404 for an absent team or participant and 400
    for a membership conflict. [faults] forces the error status of a
    request, whatever the store holds; a request answered with an error
    leaves the store as it was. *)

Module Api.

Record User : Type := mkUser { user_id : Z; is_leader : bool }.

Record Team : Type := mkTeam {
  id : Z;
  name : string;
  discord_role_id : Z;
  discord_channel_id : Z;
  users : list User;
  current_jam : bool
}.

(** The body of [GET users/{id}/current_team]. *)
Record CurrentTeam : Type := mkCurrentTeam { ct_user_id : Z; team : Team }.

Inductive Request : Type :=
| GetTeams                                   (* GET teams?current_jam=true *)
| GetTeamsFind (team_name : string)          (* GET teams/find?name=... *)
| GetCurrentTeam (user : Z)                  (* GET users/{id}/current_team *)
| DeleteTeamUser (team user : Z)             (* DELETE teams/{id}/users/{id} *)
| PostTeamUser (team user : Z) (leader : bool).
                                   (* POST teams/{id}/users/{id}?is_leader= *)

(** The answer to a request made with [raise_for_status=True]: the body,
    or the status that [ResponseCodeError] carries. *)
Inductive Response (A : Type) : Type :=
| Ok (body : A)
| Err (status : Z).
Arguments Ok {A} body.
Arguments Err {A} status.

Definition Store : Type := list Team.
Definition Faults : Type := Request -> option Z.

Definition has_user (uid : Z) (t : Team) : bool :=
  existsb (fun u => (user_id u =? uid)%Z) (users t).

Definition with_users (t : Team) (us : list User) : Team :=
  mkTeam (id t) (name t) (discord_role_id t) (discord_channel_id t) us
         (current_jam t).

Definition get_teams (faults : Faults) (db : Store) : Response (list Team) :=
  match faults GetTeams with
  | Some status => Err status
  | None => Ok (List.filter (fun t => current_jam t) db)
  end.

Definition find_team (faults : Faults) (db : Store) (nm : string)
  : Response Team :=
  match faults (GetTeamsFind nm) with
  | Some status => Err status
  | None =>
      match find (fun t => String.eqb (name t) nm) db with
      | Some t => Ok t
      | None => Err 404
      end
  end.

Definition current_team (faults : Faults) (db : Store) (uid : Z)
  : Response CurrentTeam :=
  match faults (GetCurrentTeam uid) with
  | Some status => Err status
  | None =>
      match find (fun t => current_jam t && has_user uid t) db with
      | Some t => Ok (mkCurrentTeam uid t)
      | None => Err 404
      end
  end.

Definition delete_user (faults : Faults) (db : Store) (tid uid : Z)
  : Response unit * Store :=
  match faults (DeleteTeamUser tid uid) with
  | Some status => (Err status, db)
  | None =>
      match find (fun t => (id t =? tid)%Z) db with
      | None => (Err 404, db)
      | Some t =>
          if has_user uid t then
            (Ok tt,
             map (fun t' =>
                    if (id t' =? tid)%Z then
                      with_users t'
                        (List.filter (fun u => negb (user_id u =? uid)%Z) (users t'))
                    else t') db)
          else (Err 400, db)
      end
  end.

Definition post_user (faults : Faults) (db : Store) (tid uid : Z)
           (leader : bool) : Response unit * Store :=
  match faults (PostTeamUser tid uid leader) with
  | Some status => (Err status, db)
  | None =>
      match find (fun t => (id t =? tid)%Z) db with
      | None => (Err 404, db)
      | Some t =>
          if has_user uid t then (Err 400, db)
          else
            (Ok tt,
             map (fun t' =>
                    if (id t' =? tid)%Z then
                      with_users t' (users t' ++ [mkUser uid leader])
                    else t') db)
      end
  end.

End Api.

(** ** The roster *)

(** One entry of a team's list: [{"member": member, "is_leader": flag}]. *)
Record Entry : Type := mkEntry { member : Member; is_leader : bool }.

(** ** [_views.py]: the confirmation views *)

Module Views.

Record Button : Type := mkButton { label : string; disabled : bool }.

(** The three view classes, each with what its constructor stores beside
    the author. [announcements] is what
    [guild.get_channel(Channels.summer_code_jam_announcements)] gives for
    the guild the view holds. *)
Inductive ViewClass : Type :=
| JamTeamInfoConfirmation (announcements : option Channel)
| JamCreationConfirmation (teams : gmap string (list Entry))
| JamEndConfirmation (category_channels : list (Category * list Channel))
                     (roles : list Role).

(** A view: its two buttons ([confirm] is the button named [announce] in
    [JamTeamInfoConfirmation]) and whether [stop()] was called or the
    view timed out. *)
Record View : Type := mkView {
  cls : ViewClass;
  original_author : Z;
  cancel : Button;
  confirm : Button;
  stopped : bool
}.

(** [__init__], with the buttons as their decorators declare them. *)
Definition init (c : ViewClass) (author : Z) : View :=
  mkView c author
         (mkButton "Cancel" false)
         (mkButton match c with
                   | JamTeamInfoConfirmation _ => "Announce teams"
                   | _ => "Confirm"
                   end false)
         false.

Inductive Effect : Type :=
| EditMessage (cancel confirm : Button)
    (* interaction.response.edit_message(view=self) *)
| SendMessage (content : string) (ephemeral : bool)
    (* interaction.response.send_message(content, ephemeral=...) *)
| CreationCallback (teams : gmap string (list Entry))
    (* self.callback(self.ctx, self.teams, self.bot) *)
| EndCallback (category_channels : list (Category * list Channel))
              (roles : list Role)
    (* self.callback(self.category_channels, self.roles) *)
| AnnounceTeams (channel : Channel)
    (* announcements.send(..., view=JamTeamInfoView(self.bot)) *)
| HandlerError (e : Py.Exc).
    (* an exception that leaves a button's handler *)

Definition not_yours : string :=
  ":x: You can't interact with someone else's response. Please run the command yourself!".

(** [interaction_check], the same in the three classes. *)
Definition interaction_check (v : View) (user : Z) : bool * list Effect :=
  if negb (user =? original_author v)%Z
  then (false, [SendMessage not_yours true])
  else (true, []).

(** The [cancel] button's handler, the same in the three classes. *)
Definition on_cancel (v : View) : View * list Effect :=
  let cancel' := mkButton "Cancelled" true in
  let confirm' := mkButton (label (confirm v)) true in
  (mkView (cls v) (original_author v) cancel' confirm' true,
   [EditMessage cancel' confirm']).

(** The [confirm] button's handler ([announce] in
    [JamTeamInfoConfirmation], which stops the view before it edits the
    message). *)
Definition on_confirm (v : View) : View * list Effect :=
  let confirm_label :=
    match cls v with
    | JamTeamInfoConfirmation _ => "Teams have been announced!"
    | _ => "Confirmed"
    end in
  let confirm' := mkButton confirm_label true in
  let cancel' := mkButton (label (cancel v)) true in
  (mkView (cls v) (original_author v) cancel' confirm' true,
   EditMessage cancel' confirm' ::
   match cls v with
   | JamTeamInfoConfirmation (Some ch) => [AnnounceTeams ch]
   | JamTeamInfoConfirmation None => [HandlerError Py.AttributeError]
   | JamCreationConfirmation teams => [CreationCallback teams]
   | JamEndConfirmation category_channels roles =>
       [EndCallback category_channels roles]
   end).

Inductive Item : Type := Cancel | Confirm.

(** What reaches a view: a press of one of its buttons by a user, or the
    end of its timeout. *)
Inductive Input : Type :=
| Click (user : Z) (item : Item)
| TimedOut.

(** Modelled from the spec: the dispatch of [discord.ui.View], a
    dependency that is not part of the sources. A stopped view no longer
    listens; a press runs [interaction_check] and, when that accepts, the
    pressed button's handler; the timeout ends the view. *)
Definition dispatch (v : View) (i : Input) : View * list Effect :=
  if stopped v then (v, [])
  else
    match i with
    | TimedOut =>
        (mkView (cls v) (original_author v) (cancel v) (confirm v) true, [])
    | Click user item =>
        let '(accepted, notice) := interaction_check v user in
        if accepted then
          let '(v', effects) :=
            match item with
            | Cancel => on_cancel v
            | Confirm => on_confirm v
            end in
          (v', notice ++ effects)
        else (v, notice)
    end.

(** The view after a sequence of inputs, with the effects in order. *)
Fixpoint run (v : View) (inputs : list Input) : View * list Effect :=
  match inputs with
  | [] => (v, [])
  | i :: rest =>
      let '(v1, e1) := dispatch v i in
      let '(v2, e2) := run v1 rest in
      (v2, e1 ++ e2)
  end.

Definition is_callback (e : Effect) : bool :=
  match e with
  | CreationCallback _ | EndCallback _ _ => true
  | _ => false
  end.

(** How many times the registered callback was invoked. *)
Definition callbacks (effects : list Effect) : nat :=
  length (List.filter (fun e => is_callback e) effects).

Definition has_callback (c : ViewClass) : bool :=
  match c with
  | JamTeamInfoConfirmation _ => false
  | _ => true
  end.

End Views.

(** ** The state the commands act on, and their effects *)

(** The chat platform ([guild], and [member_roles]: the roles each member
    holds, by member id) and the management service's store. *)
Record World : Type := mkWorld {
  guild : Guild;
  member_roles : gmap Z (list Role);
  db : Api.Store
}.

Inductive LogLevel : Type := TRACE | INFO | ERROR.

Inductive Event : Type :=
| Send (content : string)
    (* ctx.send(content) *)
| SendView (title description : string) (view : Views.View)
    (* ctx.send(embed=..., view=...) *)
| ApiOk (req : Api.Request)
    (* a request to the management service that succeeded *)
| ApiErr (req : Api.Request) (status : Z)
    (* a request that raised ResponseCodeError with this status *)
| RemoveRoles (member : Z) (role : Role)
    (* member.remove_roles(role) *)
| AddRoles (member : Z) (role : Role)
    (* member.add_roles(role) *)
| Paste (details : string)
    (* send_to_paste_service(details) *)
| Log (level : LogLevel)
| Ui (effect : Views.Effect).
    (* an effect of the view the command waits on *)

Record St : Type := mkSt { world : World; trace : list Event }.

(** How a step of a command ends: with a value, with the command's
    [return], with an exception, or parked at an [await] that the observed
    inputs never complete. *)
Inductive Outcome (A : Type) : Type :=
| Val (a : A)
| Return
| Raise (e : Py.Exc)
| Waiting.
Arguments Val {A} a.
Arguments Return {A}.
Arguments Raise {A} e.
Arguments Waiting {A}.

Definition Cmd (A : Type) : Type := St -> Outcome A * St.

Definition ret {A} (a : A) : Cmd A := fun s => (Val a, s).

Definition bind {A B} (c : Cmd A) (k : A -> Cmd B) : Cmd B :=
  fun s =>
    match c s with
    | (Val a, s') => k a s'
    | (Return, s') => (Return, s')
    | (Raise e, s') => (Raise e, s')
    | (Waiting, s') => (Waiting, s')
    end.

Notation "x <- c ;; k" := (bind c (fun x => k))
  (at level 100, c at next level, right associativity).
Notation "c ;;; k" := (bind c (fun _ => k))
  (at level 100, k at level 200, right associativity).

Definition return_ {A} : Cmd A := fun s => (Return, s).
Definition raise {A} (e : Py.Exc) : Cmd A := fun s => (Raise e, s).
Definition wait_forever {A} : Cmd A := fun s => (Waiting, s).

Definition emit (e : Event) : Cmd unit :=
  fun s => (Val tt, mkSt (world s) (trace s ++ [e])).

Definition emits (es : list Event) : Cmd unit :=
  fun s => (Val tt, mkSt (world s) (trace s ++ es)).

Definition get_world : Cmd World := fun s => (Val (world s), s).

Definition put_world (w : World) : Cmd unit :=
  fun s => (Val tt, mkSt w (trace s)).

Definition send (content : string) : Cmd unit := emit (Send content).
Definition log (level : LogLevel) : Cmd unit := emit (Log level).

(** [try: x = await call / except ResponseCodeError as err: handler; return] *)
Definition try_ {A} (call : Cmd (Api.Response A)) (handler : Z -> Cmd unit)
  : Cmd A :=
  r <- call ;;
  match r with
  | Api.Ok body => ret body
  | Api.Err status => handler status ;;; return_
  end.

Definition drop_role (role : Role) (held : list Role) : list Role :=
  List.filter (fun r => negb (role_id r =? role_id role)) held.

Definition take_role (role : Role) (held : list Role) : list Role :=
  if existsb (fun r => role_id r =? role_id role) held then held
  else held ++ [role].

(** [await member.remove_roles(role)]; [role] is what [guild.get_role]
    gave, and [None] has no [id]. *)
Definition remove_roles (member : Z) (role : option Role) : Cmd unit :=
  match role with
  | None => raise Py.AttributeError
  | Some r =>
      w <- get_world ;;
      put_world (mkWorld (guild w)
                         (alter (drop_role r) member (member_roles w))
                         (db w)) ;;;
      emit (RemoveRoles member r)
  end.

(** [await member.add_roles(role)] *)
Definition add_roles (member : Z) (role : option Role) : Cmd unit :=
  match role with
  | None => raise Py.AttributeError
  | Some r =>
      w <- get_world ;;
      put_world (mkWorld (guild w)
                         (<[member := take_role r
                                        (default [] (member_roles w !! member))]>
                            (member_roles w))
                         (db w)) ;;;
      emit (AddRoles member r)
  end.

(** [member.roles] *)
Definition roles_of (member : Z) : Cmd (list Role) :=
  w <- get_world ;; ret (default [] (member_roles w !! member)).

Definition generic_failure : string :=
  "Something went wrong while processing the request! We have notified the team!".

(** [", ".join]-style joining with a separator *)
Fixpoint join (sep : string) (parts : list string) : string :=
  match parts with
  | [] => EmptyString
  | [p] => p
  | p :: rest => p +:+ sep +:+ join sep rest
  end.

(** ** [_cog.py]: the [CodeJams] commands *)

Section CodeJams.

(** [_flows.TEAM_LEADER_ROLE_NAME] and [_creation_utils.CATEGORY_NAME],
    constants of modules that are not part of the sources. *)
Variable TEAM_LEADER_ROLE_NAME : string.
Variable CATEGORY_NAME : string.

(** The error statuses the management service is made to answer. *)
Variable faults : Api.Faults.

(** [send_to_paste_service]: the URL, or [None]. *)
Variable send_to_paste_service : string -> option string.

(** Python's [int] on a string; [None] stands for [ValueError]. *)
Variable int : string -> option Z.

Definition record {A} (req : Api.Request) (r : Api.Response A) : Cmd unit :=
  emit match r with
       | Api.Ok _ => ApiOk req
       | Api.Err status => ApiErr req status
       end.

(** [self.bot.code_jam_mgmt_api.get("teams", params={"current_jam": "true"})] *)
Definition api_get_teams : Cmd (Api.Response (list Api.Team)) :=
  w <- get_world ;;
  let r := Api.get_teams faults (db w) in
  record Api.GetTeams r ;;; ret r.

(** [....get("teams/find", params={"name": name})] *)
Definition api_get_find (name : string) : Cmd (Api.Response Api.Team) :=
  w <- get_world ;;
  let r := Api.find_team faults (db w) name in
  record (Api.GetTeamsFind name) r ;;; ret r.

(** [....get(f"users/{member.id}/current_team")] *)
Definition api_get_current_team (member : Z)
  : Cmd (Api.Response Api.CurrentTeam) :=
  w <- get_world ;;
  let r := Api.current_team faults (db w) member in
  record (Api.GetCurrentTeam member) r ;;; ret r.

(** [....delete(f"teams/{team}/users/{user}")] *)
Definition api_delete (team user : Z) : Cmd (Api.Response unit) :=
  w <- get_world ;;
  let '(r, db') := Api.delete_user faults (db w) team user in
  put_world (mkWorld (guild w) (member_roles w) db') ;;;
  record (Api.DeleteTeamUser team user) r ;;; ret r.

(** [....post(f"teams/{team}/users/{user}", params={"is_leader": ...})] *)
Definition api_post (team user : Z) (leader : bool)
  : Cmd (Api.Response unit) :=
  w <- get_world ;;
  let '(r, db') := Api.post_user faults (db w) team user leader in
  put_world (mkWorld (guild w) (member_roles w) db') ;;;
  record (Api.PostTeamUser team user leader) r ;;; ret r.

Definition guild_get_role (id : Z) : Cmd (option Role) :=
  w <- get_world ;; ret (get_role (guild w) id).

(** *** [create], from the rows that [csv.DictReader] yields *)

(** A row is the dict of its fields by column name. The fields are
    strings: a line shorter than the header, whose missing fields
    [csv.DictReader] gives as [None], is not among the rows considered. *)

(** [row[key]] *)
Definition item (row : gmap string string) (key : string) : Cmd string :=
  match row !! key with
  | Some v => ret v
  | None => raise Py.KeyError
  end.

Definition py_int (s : string) : Cmd Z :=
  match int s with
  | Some n => ret n
  | None => raise Py.ValueError
  end.

(** The loop over the rows; [teams] is the [defaultdict(list)]. *)
Fixpoint read_rows (rows : list (gmap string string))
         (teams : gmap string (list Entry))
  : Cmd (gmap string (list Entry)) :=
  match rows with
  | [] => ret teams
  | row :: rest =>
      id_field <- item row "Team Member Discord ID" ;;
      id <- py_int id_field ;;
      w <- get_world ;;
      match get_or_fetch_member (guild w) id with
      | None => log TRACE ;;; read_rows rest teams
      | Some member =>
          team <- item row "Team Name" ;;
          leader <- item row "Team Leader" ;;
          read_rows rest
            (<[team := default [] (teams !! team)
                       ++ [mkEntry member (String.eqb (Py.upper leader) "Y")]]>
               teams)
      end
  end.

Definition warning_description (teams : gmap string (list Entry)) : string :=
  pretty (size teams) +:+ " teams, and roles will be created, are you sure?".

Definition create (author : Z) (rows : list (gmap string string)) : Cmd unit :=
  teams <- read_rows rows ∅ ;;
  emit (SendView "Warning!" (warning_description teams)
                 (Views.init (Views.JamCreationConfirmation teams) author)).

(** *** [jam_categories], [jam_roles] and [end] *)

Definition jam_categories (g : Guild) : list Category :=
  List.filter (fun category => String.eqb (category_name category) CATEGORY_NAME)
         (guild_categories g).

Definition jam_roles : Cmd (option (list Role)) :=
  r <- api_get_teams ;;
  match r with
  | Api.Err _ => log ERROR ;;; ret None
  | Api.Ok roles_raw =>
      w <- get_world ;;
      ret (Some (omap (fun role => get_role (guild w) (Api.discord_role_id role))
                      roles_raw))
  end.

Definition nl : string := String (ascii_of_N 10) EmptyString.

Definition category_line (entry : Category * list Channel) : string :=
  category_name (fst entry) +:+ "[" +:+ pretty (category_id (fst entry))
  +:+ "]: " +:+ join "," (map channel_name (snd entry)) +:+ nl.

Definition role_line (role : Role) : string :=
  role_name role +:+ "[" +:+ pretty (role_id role) +:+ "]" +:+ nl.

Definition nothing_to_delete : string :=
  ":x: The Code Jam channels and roles have already been deleted! ".

Definition officially_ended : string :=
  "Code Jam has officially ended! :sunrise:".

(** [await confirm_view.wait()], the view receiving [inputs] meanwhile. *)
Definition wait (v : Views.View) (inputs : list Views.Input) : Cmd unit :=
  let '(v', effects) := Views.run v inputs in
  emits (map Ui effects) ;;;
  if Views.stopped v' then ret tt else wait_forever.

Definition end_ (author : Z) (inputs : list Views.Input) : Cmd unit :=
  w <- get_world ;;
  let categories := jam_categories (guild w) in
  roles <- jam_roles ;;
  if match categories with [] => true | _ => false end
     && match roles with None | Some [] => true | _ => false end
  then send nothing_to_delete ;;; return_
  else
    let category_channels :=
      map (fun category => (category, channels category)) categories in
    let details :=
      fold_left (fun d entry => d +:+ category_line entry) category_channels
                ("Categories and Channels: " +:+ nl) in
    let details := details +:+ "Roles:" +:+ nl in
    match roles with
    | None => raise Py.TypeError
    | Some roles =>
        let details :=
          fold_left (fun d role => d +:+ role_line role) roles details in
        emit (Paste details) ;;;
        let url :=
          match send_to_paste_service details with
          | None | Some EmptyString =>
              "**Unable to send deletion details to the pasting service.**"
          | Some url => url
          end in
        let confirm_view :=
          Views.init (Views.JamEndConfirmation category_channels roles)
                     author in
        emit (SendView "Are you sure?" url confirm_view) ;;;
        wait confirm_view inputs ;;;
        send officially_ended
    end.

(** *** [move] and [remove] *)

(** The loop that decides whether the member leads the new team. *)
Definition leader_scan (members : list Api.User) (member : Z) : bool :=
  fold_left (fun is_leader memb =>
               if (Api.user_id memb =? member) && Api.is_leader memb
               then true else is_leader)
            members false.

Definition move (member : Z) (new_team_name : string) : Cmd unit :=
  team_to_move_in <-
    try_ (api_get_find new_team_name)
         (fun status =>
            if status =? 404 then
              send (":x: Team `" +:+ new_team_name
                    +:+ "` does not exists in the database!")
            else send generic_failure ;;; log ERROR) ;;
  team <-
    try_ (api_get_current_team member)
         (fun status =>
            if status =? 404 then
              send ":x: It seems like the user is not a participant!"
            else send generic_failure ;;; log ERROR) ;;
  try_ (api_delete (Api.id (Api.team team)) (Api.ct_user_id team))
       (fun status =>
          if status =? 404 then send ":x: Team or user could not be found!"
          else if status =? 400 then
            send ":x: The member given is not part of the team! (Might have been removed already)"
          else send generic_failure ;;; log ERROR) ;;;
  team_role <- guild_get_role (Api.discord_role_id (Api.team team)) ;;
  remove_roles member team_role ;;;
  let is_leader := leader_scan (Api.users (Api.team team)) member in
  try_ (api_post (Api.id team_to_move_in) member is_leader)
       (fun status =>
          if status =? 404 then
            send ":x: Team or user could not be found." ;;; log INFO
          else if status =? 400 then
            (* team_to_move_in['team'] : the body has no such key *)
            raise Py.KeyError
          else send generic_failure ;;; log ERROR) ;;;
  new_role <- guild_get_role (Api.discord_role_id team_to_move_in) ;;
  add_roles member new_role ;;;
  send ("Success! Participant " +:+ mention member +:+ " has been moved "
        +:+ "from " +:+ Api.name (Api.team team) +:+ " to "
        +:+ Api.name team_to_move_in).

(** The loop over [member.roles] that strips the leader role. *)
Fixpoint strip_leader (member : Z) (roles : list Role) : Cmd unit :=
  match roles with
  | [] => ret tt
  | role :: rest =>
      (if String.eqb (role_name role) TEAM_LEADER_ROLE_NAME
       then remove_roles member (Some role) else ret tt) ;;;
      strip_leader member rest
  end.

Definition remove (member : Z) : Cmd unit :=
  team <-
    try_ (api_get_current_team member)
         (fun status =>
            if status =? 404 then
              send ":x: It seems like the user is not a participant!"
            else send generic_failure ;;; log ERROR) ;;
  try_ (api_delete (Api.id (Api.team team)) (Api.ct_user_id team))
       (fun status =>
          if status =? 404 then send ":x: Team or user could not be found!"
          else if status =? 400 then
            send ":x: The member given is not part of the team! (Might have been removed already)"
          else send generic_failure ;;; log ERROR) ;;;
  team_role <- guild_get_role (Api.discord_role_id (Api.team team)) ;;
  remove_roles member team_role ;;;
  roles <- roles_of member ;;
  strip_leader member roles ;;;
  send ("Successfully removed " +:+ mention member +:+ " from team "
        +:+ Api.name (Api.team team)).

End CodeJams.

(** A command run from a world, with an empty trace. *)
Definition exec {A} (c : Cmd A) (w : World) : Outcome A * St :=
  c (mkSt w []).

(** ** A small jam, for the examples *)

Module Sample.

(** The decimal numerals, on which Python's [int] agrees. *)
Fixpoint digits (s : string) (acc : Z) : option Z :=
  match s with
  | EmptyString => Some acc
  | String c s' =>
      let n := Z.of_N (N_of_ascii c) in
      if (48 <=? n) && (n <=? 57) then digits s' (10 * acc + (n - 48))
      else None
  end.

Definition int (s : string) : option Z :=
  match s with
  | EmptyString => None
  | _ => digits s 0
  end.

Definition leaders : string := "Code Jam Team Leaders".
Definition category : string := "Code Jam".

Definition role_a : Role := mkRole 10 "Team A".
Definition role_b : Role := mkRole 20 "Team B".
Definition role_leader : Role := mkRole 99 leaders.

Definition ann : Member := mkMember 1 "ann".
Definition bob : Member := mkMember 2 "bob".
Definition cem : Member := mkMember 3 "cem".

Definition team_a_channel : Channel := mkChannel 100 "team-a" true [1; 2].

Definition guild : Guild :=
  mkGuild [role_a; role_b; role_leader] [ann; bob; cem]
          [mkCategory 1000 category [team_a_channel]].

Definition empty_guild : Guild := mkGuild [] [ann; bob; cem] [].

Definition team_a : Api.Team :=
  Api.mkTeam 1 "Team A" 10 100 [Api.mkUser 1 true; Api.mkUser 2 false] true.
Definition team_b : Api.Team :=
  Api.mkTeam 2 "Team B" 20 200 [Api.mkUser 3 false] true.

Definition world : World :=
  mkWorld guild
          (<[1 := [role_a; role_leader]]>
             (<[2 := [role_a]]> (<[3 := [role_b]]> ∅)))
          [team_a; team_b].

Definition empty_world : World := mkWorld empty_guild ∅ [].

Definition no_faults : Api.Faults := fun _ => None.

(** The membership deletion is answered 404. *)
Definition delete_404 : Api.Faults :=
  fun req =>
    match req with
    | Api.DeleteTeamUser _ _ => Some 404
    | _ => None
    end.

(** A pending end confirmation, and a pending creation confirmation. *)
Definition end_view : Views.View :=
  Views.init (Views.JamEndConfirmation [] [role_a]) 1.

Definition paste (details : string) : option string :=
  Some "https://paste.example/1".

Definition row (team id leader : string) : gmap string string :=
  <["Team Name" := team]>
    (<["Team Member Discord ID" := id]> (<["Team Leader" := leader]> ∅)).

(** Team A with two members and one leader, team B with one member, and
    a row whose member id resolves to nobody. *)
Definition roster : list (gmap string string) :=
  [row "A" "1" "y"; row "B" "3" "N"; row EmptyString "77" "Y"; row "A" "2" "N"].

(** A roster whose only row names a member that does not resolve. *)
Definition ghost_roster : list (gmap string string) := [row "A" "77" "N"].

End Sample.

(** ** What the properties observe *)

(** [resolve int g row]: the member that the row's id field names in the
    guild, if the field reads as an integer and the member exists. *)
Definition resolve (int : string -> option Z) (g : Guild)
           (row : gmap string string) : option Member :=
  match row !! "Team Member Discord ID" with
  | Some id_field =>
      match int id_field with
      | Some id => get_or_fetch_member g id
      | None => None
      end
  | None => None
  end.

(** The row's "Team Leader" value equals "Y" up to case. *)
Definition flagged (row : gmap string string) : bool :=
  match row !! "Team Leader" with
  | Some v => String.eqb v "Y" || String.eqb v "y"
  | None => false
  end.

(** The rows of team [name] whose member resolves, in the roster's order. *)
Definition team_rows (int : string -> option Z) (g : Guild)
           (rows : list (gmap string string)) (name : string)
  : list (gmap string string) :=
  List.filter (fun row =>
            match resolve int g row, row !! "Team Name" with
            | Some _, Some team => String.eqb team name
            | _, _ => false
            end) rows.

Definition is_role_event (e : Event) : bool :=
  match e with
  | RemoveRoles _ _ | AddRoles _ _ => true
  | _ => false
  end.

Definition is_deletion (e : Event) : bool :=
  match e with
  | ApiOk (Api.DeleteTeamUser _ _) => true
  | _ => false
  end.

(** Every role event of the trace comes after a membership deletion that
    succeeded; [deleted] tells whether one was seen already. *)
Fixpoint roles_follow_deletion (deleted : bool) (tr : list Event) : bool :=
  match tr with
  | [] => true
  | e :: rest =>
      (negb (is_role_event e) || deleted)
      && roles_follow_deletion (deleted || is_deletion e) rest
  end.

(** The events by which a confirmation is shown or acted on. *)
Definition is_view_event (e : Event) : bool :=
  match e with
  | SendView _ _ _ | Ui _ => true
  | _ => false
  end.

(** [move] stops at one of its first three requests. *)
Definition move_fails_early (faults : Api.Faults) (w : World) (member : Z)
           (new_team_name : string) : Prop :=
  (exists status,
      Api.find_team faults (db w) new_team_name = Api.Err status)
  \/ (exists status,
         Api.current_team faults (db w) member = Api.Err status)
  \/ (exists team status,
         Api.current_team faults (db w) member = Api.Ok team
         /\ fst (Api.delete_user faults (db w) (Api.id (Api.team team))
                                 (Api.ct_user_id team)) = Api.Err status).

(** [unhyphen c]: what [replace("-", " ")] makes of one character. *)
Definition unhyphen (c : ascii) : ascii :=
  if Ascii.eqb c "-" then " "%char else c.

(** The flag of [ascii_do_title]'s loop when it reaches position [i]. *)
Definition flag_at (b : bool) (s : string) (i : nat) : bool :=
  match i with
  | O => b
  | S j => match String.get j s with
           | Some p => Py.is_letter p
           | None => false
           end
  end.

(** An input that [interaction_check] turns away. *)
Definition foreign (v : Views.View) (i : Views.Input) : bool :=
  match i with
  | Views.Click user _ => negb (user =? Views.original_author v)
  | Views.TimedOut => false
  end.

(** How an entry stands to the row it was made from. *)
Definition entry_of (int : string -> option Z) (g : Guild)
           (row : gmap string string) (e : Entry) : Prop :=
  resolve int g row = Some (member e) /\ is_leader e = flagged row.

(** ** More to observe on the views *)

(** The effects by which a view acts for its author: the callback of the
    creation and end confirmations, the announcement of the third class. *)
Definition acts (e : Views.Effect) : bool :=
  match e with
  | Views.CreationCallback _ | Views.EndCallback _ _
  | Views.AnnounceTeams _ => true
  | _ => false
  end.

(** The payload an effect carries is the one the view was built with. *)
Definition carries (c : Views.ViewClass) (e : Views.Effect) : Prop :=
  match e with
  | Views.CreationCallback teams => c = Views.JamCreationConfirmation teams
  | Views.EndCallback category_channels roles =>
      c = Views.JamEndConfirmation category_channels roles
  | Views.AnnounceTeams channel =>
      c = Views.JamTeamInfoConfirmation (Some channel)
  | _ => True
  end.

(** The buttons are disabled together, and only on a stopped view. *)
Definition buttons_agree (v : Views.View) : Prop :=
  Views.disabled (Views.cancel v) = Views.disabled (Views.confirm v)
  /\ (Views.disabled (Views.confirm v) = true -> Views.stopped v = true).

(** ** [team_channel] *)

(** The criterion of [team_channel]: a team name, or a participant (by
    id). *)
Inductive Criterion : Type :=
| ByName (name : string)
| ByMember (member : Z).

(** The test of the innermost [if]: [criterion == channel.name or
    criterion == CodeJams.team_name(channel) or criterion in
    channel.overwrites]. A string equals no key of [overwrites], and a
    member equals no string. [title] is [str.title], as in [team_name]. *)
Definition meets (title : string -> string) (criterion : Criterion)
           (channel : Channel) : bool :=
  match criterion with
  | ByName s =>
      String.eqb s (channel_name channel)
      || String.eqb s (team_name title channel)
  | ByMember m => existsb (fun id => id =? m) (overwrites channel)
  end.

(** The loop over the channels of one category. *)
Fixpoint scan_channels (title : string -> string) (criterion : Criterion)
         (chs : list Channel) : option Channel :=
  match chs with
  | [] => None
  | channel :: rest =>
      if is_text channel && meets title criterion channel then Some channel
      else scan_channels title criterion rest
  end.

(** The loop over the jam categories. *)
Fixpoint scan_categories (title : string -> string) (criterion : Criterion)
         (categories : list Category) : option Channel :=
  match categories with
  | [] => None
  | category :: rest =>
      match scan_channels title criterion (channels category) with
      | Some channel => Some channel
      | None => scan_categories title criterion rest
      end
  end.

Definition team_channel (title : string -> string) (CATEGORY_NAME : string)
           (g : Guild) (criterion : Criterion) : option Channel :=
  scan_categories title criterion (jam_categories CATEGORY_NAME g).

(** ** [JamTeamInfoView.show_team] *)

Record Embed : Type := mkEmbed {
  embed_title : string;
  embed_fields : list (string * string);
  embed_footer : string
}.

(** [await interaction.response.send_message(embed=..., ephemeral=...)] *)
Inductive Reply : Type :=
| SendEmbed (embed : Embed) (ephemeral : bool).

(** [show_team] for the user who pressed the button: the requests and log
    records, and the replies. In the [except] branch [err.response], a
    response object, is compared with 404, and the two [send_message]
    calls there are not awaited, so that branch only logs. *)
Definition show_team (faults : Api.Faults) (w : World) (user : Z)
  : list Event * list Reply :=
  match Api.current_team faults (db w) user with
  | Api.Err status =>
      ([ApiErr (Api.GetCurrentTeam user) status; Log ERROR], [])
  | Api.Ok team =>
      let team_channel :=
        "<#" +:+ pretty (Api.discord_channel_id (Api.team team)) +:+ ">" in
      let team_members :=
        map (fun member => mention (Api.user_id member))
            (Api.users (Api.team team)) in
      ([ApiOk (Api.GetCurrentTeam user)],
       [SendEmbed
          (mkEmbed ("You have been sorted into " +:+ Api.name (Api.team team))
                   [("Your team's channel:", team_channel);
                    ("Your team's members:", join nl team_members)]
                   "Good luck!")
          true])
  end.

(** ** More to observe on the commands *)

Definition is_send_view (e : Event) : bool :=
  match e with
  | SendView _ _ _ => true
  | _ => false
  end.

(** The roles that [remove] leaves to the member who held [held]: those
    that differ in id from the team's role and from every role of [held]
    that bears the leaders' name. *)
Definition kept_roles (leaders : string) (team_role : Role)
           (held : list Role) : list Role :=
  List.filter
    (fun r =>
       negb (existsb (fun l => String.eqb (role_name l) leaders
                               && (role_id r =? role_id l))
                     (drop_role team_role held)))
    (drop_role team_role held).

(** What the loop of [remove] over [roles] makes of the roles [held]. *)
Definition strip_all (leaders : string) (roles held : list Role) : list Role :=
  fold_left (fun h l =>
               if String.eqb (role_name l) leaders then drop_role l h else h)
            roles held.

(** The insertion of a membership is answered 404. *)
Definition post_404 : Api.Faults :=
  fun req =>
    match req with
    | Api.PostTeamUser _ _ _ => Some 404
    | _ => None
    end.

(** A row whose member id cannot be read: the column is missing, or the
    field is no integer. *)
Definition bad_id (int : string -> option Z) (row : gmap string string)
  : bool :=
  match row !! "Team Member Discord ID" with
  | Some id_field => match int id_field with Some _ => false | None => true end
  | None => true
  end.

(** A row with its three columns. *)
Definition has_columns (row : gmap string string) : bool :=
  match row !! "Team Member Discord ID", row !! "Team Name",
        row !! "Team Leader" with
  | Some _, Some _, Some _ => true
  | _, _, _ => false
  end.

(** A row whose id column holds no integer. *)
Definition no_integer (int : string -> option Z) (row : gmap string string)
  : bool :=
  match row !! "Team Member Discord ID" with
  | Some id_field => match int id_field with Some _ => false | None => true end
  | None => false
  end.

(** A row with its three columns and an integer in the id column. *)
Definition well_formed (int : string -> option Z) (row : gmap string string)
  : bool :=
  negb (bad_id int row)
  && match row !! "Team Name", row !! "Team Leader" with
     | Some _, Some _ => true
     | _, _ => false
     end.

(** The rows whose member does not resolve. *)
Definition unresolved (int : string -> option Z) (g : Guild)
           (rows : list (gmap string string)) : list (gmap string string) :=
  List.filter (fun row => match resolve int g row with
                          | Some _ => false
                          | None => true
                          end) rows.

(** The teams of the sample roster. *)
Definition sample_teams : gmap string (list Entry) :=
  <["A" := [mkEntry Sample.ann true; mkEntry Sample.bob false]]>
    (<["B" := [mkEntry Sample.cem false]]> ∅).

(** ** Tactics *)

(** Case analysis on a character. *)
Ltac by_cases c := destruct c as [[] [] [] [] [] [] [] []]; reflexivity.

(** One round of evaluation of a command, up to the next answer of the
    management service. *)
Ltac run_cmd :=
  cbv beta iota zeta delta
      [exec try_ bind ret return_ raise emit emits send log
       get_world put_world record api_get_find api_get_current_team
       api_delete api_post api_get_teams guild_get_role remove_roles
       add_roles roles_of];
  cbn [world trace guild member_roles db app fst snd].

Ltac run_end :=
  cbv beta iota zeta delta
      [exec end_ jam_roles wait wait_forever bind ret return_ raise emit
       emits send log get_world put_world record api_get_teams];
  cbn [world trace guild member_roles db app fst snd andb].

Ltac case_status :=
  match goal with
  | |- context [if (?s =? 404)%Z then _ else _] => destruct (s =? 404)%Z
  | |- context [if (?s =? 400)%Z then _ else _] => destruct (s =? 400)%Z
  end.

Ltac case_role :=
  match goal with
  | |- context [get_role ?g ?i] => destruct (get_role g i)
  end.

Ltac finish_abort w :=
  repeat split;
  try (destruct w; reflexivity);
  try (eexists; simpl; eauto 10).

(** * Properties *)

(** ** The display name of a channel *)

Section Characters.

Lemma is_letter_to_upper c : Py.is_letter (Py.to_upper c) = Py.is_letter c.
Proof. by_cases c. Qed.

Lemma is_letter_to_lower c : Py.is_letter (Py.to_lower c) = Py.is_letter c.
Proof. by_cases c. Qed.

Lemma to_upper_twice c : Py.to_upper (Py.to_upper c) = Py.to_upper c.
Proof. by_cases c. Qed.

Lemma to_lower_twice c : Py.to_lower (Py.to_lower c) = Py.to_lower c.
Proof. by_cases c. Qed.

Lemma to_upper_hyphen c :
  Ascii.eqb (Py.to_upper c) "-" = Ascii.eqb c "-".
Proof. by_cases c. Qed.

Lemma to_lower_hyphen c :
  Ascii.eqb (Py.to_lower c) "-" = Ascii.eqb c "-".
Proof. by_cases c. Qed.

Lemma upper_char_Y c :
  Ascii.eqb (Py.to_upper c) "Y" = Ascii.eqb c "Y" || Ascii.eqb c "y".
Proof. by_cases c. Qed.

Lemma is_ascii_to_upper c :
  Py.is_ascii_char (Py.to_upper c) = Py.is_ascii_char c.
Proof. by_cases c. Qed.

Lemma is_ascii_to_lower c :
  Py.is_ascii_char (Py.to_lower c) = Py.is_ascii_char c.
Proof. by_cases c. Qed.

Lemma is_ascii_unhyphen c :
  Py.is_ascii_char (if Ascii.eqb c "-" then " "%char else c)
  = Py.is_ascii_char c.
Proof. by_cases c. Qed.

End Characters.

Lemma get_replace_hyphen s i :
  String.get i (Py.replace "-" " " s) = option_map unhyphen (String.get i s).
Proof.
  revert i. induction s as [|c s IH]; intros [|i]; simpl; auto.
Qed.

Lemma length_replace old new s :
  String.length (Py.replace old new s) = String.length s.
Proof. induction s; simpl; auto. Qed.

Lemma is_ascii_replace s :
  Py.is_ascii (Py.replace "-" " " s) = Py.is_ascii s.
Proof.
  induction s as [|c s IH]; [reflexivity|].
  cbn [Py.replace Py.is_ascii]. rewrite is_ascii_unhyphen, IH. reflexivity.
Qed.

Lemma is_ascii_do_title s : forall b,
  Py.is_ascii (Py.ascii_do_title b s) = Py.is_ascii s.
Proof.
  induction s as [|c s IH]; intros b; [reflexivity|].
  cbn [Py.ascii_do_title Py.is_ascii]. rewrite IH.
  destruct b; rewrite ?is_ascii_to_lower, ?is_ascii_to_upper; reflexivity.
Qed.

Lemma length_do_title b s :
  String.length (Py.ascii_do_title b s) = String.length s.
Proof. revert b. induction s; intros; simpl; auto. Qed.

(** A position in range has the position before it in range. *)
Lemma get_before s : forall j c,
  String.get (S j) s = Some c -> String.get j s <> None.
Proof.
  induction s as [|a s IH]; intros [|j] c; simpl; try discriminate.
  apply IH.
Qed.

Lemma get_do_title s : forall b i,
  String.get i (Py.ascii_do_title b s)
  = option_map (fun c => if flag_at b s i then Py.to_lower c else Py.to_upper c)
               (String.get i s).
Proof.
  induction s as [|c s IH]; intros b [|i]; simpl; auto.
  rewrite IH. destruct i; reflexivity.
Qed.

Lemma do_title_twice s : forall b,
  Py.ascii_do_title b (Py.ascii_do_title b s) = Py.ascii_do_title b s.
Proof.
  induction s as [|c s IH]; intros b; simpl; auto.
  destruct b.
  - rewrite to_lower_twice, is_letter_to_lower, IH. reflexivity.
  - rewrite to_upper_twice, is_letter_to_upper, IH. reflexivity.
Qed.

Lemma replace_do_title s : forall b,
  Py.replace "-" " " (Py.ascii_do_title b (Py.replace "-" " " s))
  = Py.ascii_do_title b (Py.replace "-" " " s).
Proof.
  induction s as [|c s IH]; intros b; simpl; auto.
  rewrite IH. f_equal.
  destruct b; rewrite ?to_lower_hyphen, ?to_upper_hyphen;
    destruct (Ascii.eqb c "-") eqn:E; simpl; rewrite ?E; reflexivity.
Qed.

(** The display name of a slug of ASCII characters, for a [title] that is
    [str.title] on such strings. *)
Lemma team_name_ascii title id slug text ow :
  Py.title_on_ascii title ->
  Py.is_ascii slug = true ->
  team_name title (mkChannel id slug text ow)
  = Py.ascii_title (Py.replace "-" " " slug).
Proof.
  intros Htitle Hascii. unfold team_name. simpl channel_name.
  apply Htitle. rewrite is_ascii_replace. exact Hascii.
Qed.

(** C9. [team_name] is a function of the channel's slug and of nothing
    else: two channels with one slug have one display name, whatever the
    slug. The name is the slug with its hyphens replaced by spaces, a
    step that keeps the length and every other character, and then
    title-cased by [str.title]; "team-rocket" gives "Team Rocket". For a
    slug of ASCII characters the name is spelled out: it has the slug's
    length, a space where the slug has a hyphen, and elsewhere the slug's
    character, lowercased after a letter and uppercased otherwise; it is
    made of ASCII characters, and as a slug it is its own display name.
    [str.title] is taken as it is on strings of ASCII characters; on the
    others it is left open. *)
Theorem team_name_display (title : string -> string)
        (id : Z) (slug : string) (text : bool) (ow : list Z) :
  Py.title_on_ascii title ->
  let ch := mkChannel id slug text ow in
  (forall id' text' ow',
      team_name title (mkChannel id' slug text' ow') = team_name title ch)
  /\ team_name title ch = title (Py.replace "-" " " slug)
  /\ String.length (Py.replace "-" " " slug) = String.length slug
  /\ (forall i, String.get i (Py.replace "-" " " slug)
                = option_map unhyphen (String.get i slug))
  /\ team_name title (mkChannel id "team-rocket" text ow) = "Team Rocket"
  /\ (Py.is_ascii slug = true ->
      team_name title ch = Py.ascii_title (Py.replace "-" " " slug)
      /\ String.length (team_name title ch) = String.length slug
      /\ (forall i, String.get i (team_name title ch)
                    = option_map (display_char (char_before slug i))
                                 (String.get i slug))
      /\ Py.is_ascii (team_name title ch) = true
      /\ team_name title (mkChannel id (team_name title ch) text ow)
         = team_name title ch).
Proof.
  intros Htitle. cbv zeta.
  split; [reflexivity|]. split; [reflexivity|].
  split; [apply length_replace|]. split; [apply get_replace_hyphen|].
  split; [exact (team_name_ascii title id "team-rocket" text ow Htitle eq_refl)|].
  intros Hascii.
  assert (Hname : Py.is_ascii (Py.ascii_title (Py.replace "-" " " slug)) = true).
  { unfold Py.ascii_title. rewrite is_ascii_do_title, is_ascii_replace.
    exact Hascii. }
  rewrite (team_name_ascii _ _ _ _ _ Htitle Hascii).
  split; [reflexivity|].
  rewrite (team_name_ascii _ _ _ _ _ Htitle Hname).
  unfold Py.ascii_title.
  split; [|split; [|split]].
  - rewrite length_do_title, length_replace. reflexivity.
  - intros i. rewrite get_do_title, get_replace_hyphen.
    destruct (String.get i slug) as [c|] eqn:Hc; simpl; [|reflexivity].
    f_equal. unfold display_char, unhyphen.
    destruct i as [|j]; simpl.
    + destruct (Ascii.eqb c "-"); reflexivity.
    + rewrite get_replace_hyphen.
      destruct (String.get j slug) as [p|] eqn:Hp; simpl.
      * unfold unhyphen.
        destruct (Ascii.eqb p "-") eqn:Ep.
        -- apply Ascii.eqb_eq in Ep. subst p.
           destruct (Ascii.eqb c "-"); reflexivity.
        -- destruct (Ascii.eqb c "-"), (Py.is_letter p); reflexivity.
      * exfalso. exact (get_before _ _ _ Hc Hp).
  - exact Hname.
  - rewrite replace_do_title, do_title_twice. reflexivity.
Qed.

Lemma team_name_display_witness :
  team_name Py.ascii_title (mkChannel 1 "team-rocket" true []) = "Team Rocket"
  /\ team_name Py.ascii_title (mkChannel 1 "Team Rocket" true [])
     = "Team Rocket".
Proof.
  pose proof (team_name_display Py.ascii_title 1 "team-rocket" true []
                (fun s _ => eq_refl)) as H.
  cbv zeta in H.
  destruct H as (_ & _ & _ & _ & Hrocket & Hascii).
  split; [exact Hrocket|].
  destruct (Hascii eq_refl) as (_ & _ & _ & _ & Htwice).
  rewrite Hrocket in Htwice. exact Htwice.
Defined.

(** ** The confirmation views *)

Section ViewFacts.

Import Views.

Lemma dispatch_stopped v i : stopped v = true -> dispatch v i = (v, []).
Proof. intros H. unfold dispatch. rewrite H. reflexivity. Qed.

Lemma run_stopped v inputs : stopped v = true -> run v inputs = (v, []).
Proof.
  intros H. induction inputs as [|i rest IH]; simpl; [reflexivity|].
  rewrite dispatch_stopped, IH; auto.
Qed.

Lemma dispatch_foreign v i :
  stopped v = false -> foreign v i = true ->
  dispatch v i = (v, [SendMessage not_yours true]).
Proof.
  intros Hs Hf. destruct i as [user item|]; [|discriminate].
  unfold dispatch, interaction_check. simpl in Hf. rewrite Hs, Hf.
  reflexivity.
Qed.

Lemma run_foreign v pre :
  stopped v = false -> forallb (foreign v) pre = true ->
  fst (run v pre) = v /\ callbacks (snd (run v pre)) = 0%nat.
Proof.
  intros Hs. induction pre as [|i rest IH]; simpl; [auto|].
  intros [Hi Hrest]%andb_prop.
  rewrite (dispatch_foreign _ _ Hs Hi).
  destruct (IH Hrest) as [Hv Hc].
  destruct (run v rest) as [v2 e2]. simpl in *. auto.
Qed.

Lemma run_app v l1 l2 :
  run v (l1 ++ l2)
  = (fst (run (fst (run v l1)) l2),
     snd (run v l1) ++ snd (run (fst (run v l1)) l2)).
Proof.
  revert v. induction l1 as [|i l1 IH]; intros v; simpl.
  - destruct (run v l2); reflexivity.
  - destruct (dispatch v i) as [v1 e1]. rewrite IH.
    destruct (run v1 l1) as [v2 e2]. simpl.
    destruct (run v2 l2) as [v3 e3]. simpl.
    rewrite app_assoc. reflexivity.
Qed.

Lemma run_one v i : run v [i] = dispatch v i.
Proof.
  simpl. destruct (dispatch v i) as [v1 e1]. rewrite app_nil_r. reflexivity.
Qed.

Lemma callbacks_app e1 e2 :
  callbacks (e1 ++ e2) = (callbacks e1 + callbacks e2)%nat.
Proof. unfold callbacks. rewrite List.filter_app, length_app. reflexivity. Qed.

(** The author's press of [confirm] on a pending view. *)
Lemma dispatch_confirm v :
  stopped v = false ->
  dispatch v (Click (original_author v) Confirm) = on_confirm v.
Proof.
  intros Hs. unfold dispatch, interaction_check.
  rewrite Hs, Z.eqb_refl. simpl. reflexivity.
Qed.

Lemma on_confirm_callbacks v :
  has_callback (cls v) = true -> callbacks (snd (on_confirm v)) = 1%nat.
Proof. unfold on_confirm. destruct (cls v); simpl; [discriminate|auto..]. Qed.

End ViewFacts.

(** C7. On a pending view of any of the three classes, a press by a user
    other than the original author is answered with the notice, visible to
    that user, and nothing else happens: the view is the one it was, so
    not stopped and with the buttons it had, and no callback is invoked. *)
Theorem foreign_interaction_rejected (v : Views.View) (user : Z)
        (item : Views.Item) :
  Views.stopped v = false ->
  user <> Views.original_author v ->
  Views.interaction_check v user
  = (false, [Views.SendMessage Views.not_yours true])
  /\ Views.dispatch v (Views.Click user item)
     = (v, [Views.SendMessage Views.not_yours true])
  /\ Views.callbacks (snd (Views.dispatch v (Views.Click user item))) = 0%nat.
Proof.
  intros Hs Hu.
  assert (Hf : (user =? Views.original_author v) = false) by (apply Z.eqb_neq; exact Hu).
  assert (Hd : Views.dispatch v (Views.Click user item)
               = (v, [Views.SendMessage Views.not_yours true])).
  { apply dispatch_foreign; [exact Hs|]. simpl. rewrite Hf. reflexivity. }
  split; [|split].
  - unfold Views.interaction_check. rewrite Hf. reflexivity.
  - exact Hd.
  - rewrite Hd. reflexivity.
Qed.

Lemma foreign_interaction_rejected_witness :
  Views.dispatch Sample.end_view (Views.Click 2 Views.Confirm)
  = (Sample.end_view, [Views.SendMessage Views.not_yours true]).
Proof.
  exact (proj1 (proj2 (foreign_interaction_rejected Sample.end_view 2
                         Views.Confirm eq_refl ltac:(discriminate)))).
Defined.

(** C4. On a pending creation or end confirmation, when the presses before
    it were all turned away, the author's press of [confirm] invokes the
    callback once and leaves the view stopped with both buttons disabled;
    whatever comes after it has no effect and changes nothing, so the whole
    sequence invokes the callback exactly once. *)
Theorem confirm_invokes_callback_once (v : Views.View)
        (pre post : list Views.Input) :
  Views.stopped v = false ->
  Views.has_callback (Views.cls v) = true ->
  forallb (foreign v) pre = true ->
  let press := Views.Click (Views.original_author v) Views.Confirm in
  let v1 := fst (Views.run v (pre ++ [press])) in
  Views.callbacks (snd (Views.run v (pre ++ [press]))) = 1%nat
  /\ Views.stopped v1 = true
  /\ Views.disabled (Views.cancel v1) = true
  /\ Views.disabled (Views.confirm v1) = true
  /\ Views.label (Views.confirm v1) = "Confirmed"
  /\ (forall i, Views.dispatch v1 i = (v1, []))
  /\ Views.run v1 post = (v1, [])
  /\ fst (Views.run v (pre ++ press :: post)) = v1
  /\ Views.callbacks (snd (Views.run v (pre ++ press :: post))) = 1%nat.
Proof.
  intros Hs Hc Hpre press v1.
  destruct (run_foreign v pre Hs Hpre) as [Hv H0].
  assert (Hrun1 : Views.run v (pre ++ [press])
                  = (fst (Views.on_confirm v),
                     snd (Views.run v pre) ++ snd (Views.on_confirm v))).
  { rewrite run_app, Hv, run_one. unfold press.
    rewrite (dispatch_confirm v Hs). reflexivity. }
  assert (Hv1 : v1 = fst (Views.on_confirm v)).
  { unfold v1. rewrite Hrun1. reflexivity. }
  assert (Hstop : Views.stopped v1 = true) by (rewrite Hv1; reflexivity).
  assert (Hone : Views.callbacks (snd (Views.run v (pre ++ [press]))) = 1%nat).
  { rewrite Hrun1. cbn [snd].
    rewrite callbacks_app, H0, (on_confirm_callbacks v Hc). reflexivity. }
  assert (Hpost : Views.run v1 post = (v1, [])) by (apply run_stopped; exact Hstop).
  assert (Hall : Views.run v (pre ++ press :: post)
                 = (v1, snd (Views.run v (pre ++ [press])))).
  { change (press :: post) with ([press] ++ post).
    rewrite app_assoc, run_app. fold v1. rewrite Hpost. simpl.
    rewrite app_nil_r. reflexivity. }
  repeat split; auto.
  - rewrite Hv1. reflexivity.
  - rewrite Hv1. reflexivity.
  - rewrite Hv1. unfold Views.on_confirm. simpl.
    destruct (Views.cls v); [discriminate|reflexivity..].
  - intros i. apply dispatch_stopped. exact Hstop.
  - rewrite Hall. reflexivity.
  - rewrite Hall. simpl. exact Hone.
Qed.

Lemma confirm_invokes_callback_once_witness :
  Views.callbacks
    (snd (Views.run Sample.end_view
            ([Views.Click 2 Views.Confirm]
               ++ Views.Click 1 Views.Confirm
               :: [Views.Click 1 Views.Confirm; Views.Click 1 Views.Cancel])))
  = 1%nat.
Proof.
  exact (proj2 (proj2 (proj2 (proj2 (proj2 (proj2 (proj2 (proj2
           (confirm_invokes_callback_once Sample.end_view
              [Views.Click 2 Views.Confirm]
              [Views.Click 1 Views.Confirm; Views.Click 1 Views.Cancel]
              eq_refl eq_refl eq_refl))))))))).
Defined.

(** ** The management service *)

Lemma delete_user_err faults db0 tid uid status :
  fst (Api.delete_user faults db0 tid uid) = Api.Err status ->
  Api.delete_user faults db0 tid uid = (Api.Err status, db0).
Proof.
  unfold Api.delete_user.
  destruct (faults _); [simpl; congruence|].
  destruct (find _ db0); [|simpl; congruence].
  destruct (Api.has_user uid _); simpl; congruence.
Qed.

Lemma post_user_err faults db0 tid uid leader status :
  fst (Api.post_user faults db0 tid uid leader) = Api.Err status ->
  Api.post_user faults db0 tid uid leader = (Api.Err status, db0).
Proof.
  unfold Api.post_user.
  destruct (faults _); [simpl; congruence|].
  destruct (find _ db0); [|simpl; congruence].
  destruct (Api.has_user uid _); simpl; congruence.
Qed.

(** ** [remove] *)

(** C3, amended. When the deletion of the membership record is answered
    404, [remove] reports that the team or user could not be found and
    returns: its trace is the two requests and the report, with no role
    removal, and the world, the member's roles among it, is what it was. *)
Theorem remove_aborts_on_404 (leaders : string) (faults : Api.Faults)
        (w : World) (member : Z) (team : Api.CurrentTeam) :
  Api.current_team faults (db w) member = Api.Ok team ->
  fst (Api.delete_user faults (db w) (Api.id (Api.team team))
                       (Api.ct_user_id team)) = Api.Err 404 ->
  exec (remove leaders faults member) w
  = (Return,
     mkSt w [ApiOk (Api.GetCurrentTeam member);
             ApiErr (Api.DeleteTeamUser (Api.id (Api.team team))
                                        (Api.ct_user_id team)) 404;
             Send ":x: Team or user could not be found!"]).
Proof.
  intros Hteam Hdel. apply delete_user_err in Hdel.
  unfold remove. run_cmd. rewrite Hteam. run_cmd. rewrite Hdel. run_cmd.
  destruct w; reflexivity.
Qed.

(** ** [move] *)

Lemma move_roles_follow_deletion faults w member name :
  roles_follow_deletion false
    (trace (snd (exec (move faults member name) w))) = true.
Proof.
  unfold move. run_cmd.
  destruct (Api.find_team faults (db w) name) as [target|st]; run_cmd;
    [|case_status; reflexivity].
  destruct (Api.current_team faults (db w) member) as [team|st]; run_cmd;
    [|case_status; reflexivity].
  destruct (Api.delete_user faults (db w) _ _) as [[[]|st] db1]; run_cmd;
    [|repeat case_status; reflexivity].
  case_role; run_cmd; [|reflexivity].
  destruct (Api.post_user faults db1 _ _ _) as [[[]|st] db2]; run_cmd;
    [|repeat case_status; reflexivity].
  case_role; reflexivity.
Qed.

(** C1. In every run of [move] a role is removed or granted only after the
    deletion of the membership record has succeeded. When the lookup of
    the target team, the lookup of the current team or that deletion
    fails, with whatever status, [move] returns after a report, and the
    guild, the roles of every member and the store of the management
    service are what they were. *)
Theorem move_aborts_before_roles (faults : Api.Faults) (w : World)
        (member : Z) (new_team_name : string) :
  roles_follow_deletion false
    (trace (snd (exec (move faults member new_team_name) w))) = true
  /\ (move_fails_early faults w member new_team_name ->
      fst (exec (move faults member new_team_name) w) = Return
      /\ world (snd (exec (move faults member new_team_name) w)) = w
      /\ (exists report,
            In (Send report)
               (trace (snd (exec (move faults member new_team_name) w))))
      /\ forallb (fun e => negb (is_role_event e))
                 (trace (snd (exec (move faults member new_team_name) w)))
         = true).
Proof.
  split; [apply move_roles_follow_deletion|].
  intros [[st Hfind]|[[st Hcur]|(team & st & Hcur & Hdel)]].
  - unfold move. run_cmd. rewrite Hfind. run_cmd.
    case_status; run_cmd; finish_abort w.
  - unfold move. run_cmd.
    destruct (Api.find_team faults (db w) new_team_name) as [target|st']; run_cmd.
    + rewrite Hcur. run_cmd.
      case_status; run_cmd; finish_abort w.
    + case_status; run_cmd; finish_abort w.
  - apply delete_user_err in Hdel. unfold move. run_cmd.
    destruct (Api.find_team faults (db w) new_team_name) as [target|st']; run_cmd.
    + rewrite Hcur. run_cmd. rewrite Hdel. run_cmd.
      repeat case_status; run_cmd; finish_abort w.
    + case_status; run_cmd; finish_abort w.
Qed.

Lemma move_aborts_before_roles_witness :
  world (snd (exec (move Sample.no_faults 1 "Team Z") Sample.world))
  = Sample.world.
Proof.
  exact (proj1 (proj2 (proj2 (move_aborts_before_roles Sample.no_faults
                                Sample.world 1 "Team Z")
                             (or_introl (ex_intro _ 404 eq_refl))))).
Defined.

Lemma leader_scan_from members member : forall acc,
  fold_left (fun is_leader memb =>
               if (Api.user_id memb =? member) && Api.is_leader memb
               then true else is_leader) members acc
  = acc || existsb (fun u => (Api.user_id u =? member) && Api.is_leader u)
                   members.
Proof.
  induction members as [|u us IH]; intros acc; simpl.
  - rewrite orb_false_r. reflexivity.
  - rewrite IH.
    destruct ((Api.user_id u =? member) && Api.is_leader u), acc; reflexivity.
Qed.

(** The scan gives the flag of the member's entry, when the member's
    entries in the list agree on it. *)
Lemma leader_scan_flag members member flag :
  In (Api.mkUser member flag) members ->
  (forall u, In u members -> Api.user_id u = member -> Api.is_leader u = flag) ->
  leader_scan members member = flag.
Proof.
  intros Hin Hall. unfold leader_scan. rewrite leader_scan_from. simpl.
  destruct flag.
  - apply existsb_exists. exists (Api.mkUser member true). split; [exact Hin|].
    simpl. rewrite Z.eqb_refl. reflexivity.
  - apply not_true_is_false. intros (u & Hu & Hb)%existsb_exists.
    apply andb_prop in Hb as [Hid Hl]. apply Z.eqb_eq in Hid.
    rewrite (Hall u Hu Hid) in Hl. discriminate.
Qed.

Lemma post_user_ok faults db0 tid uid leader db1 :
  Api.post_user faults db0 tid uid leader = (Api.Ok tt, db1) ->
  exists t, In t db1 /\ Api.id t = tid
            /\ In (Api.mkUser uid leader) (Api.users t).
Proof.
  unfold Api.post_user.
  destruct (faults _); [discriminate|].
  destruct (find _ db0) as [t|] eqn:Hfind; [|discriminate].
  destruct (Api.has_user uid t); [discriminate|].
  intros [= <-].
  apply find_some in Hfind as [Hin Hid].
  exists (Api.with_users t (Api.users t ++ [Api.mkUser uid leader])).
  split; [|split].
  - apply in_map_iff. exists t. rewrite Hid. auto.
  - apply Z.eqb_eq in Hid. exact Hid.
  - simpl. apply in_or_app. right. left. reflexivity.
Qed.

(** C6. When [move] runs to its end, the member being recorded in the
    former team's list with the flag [flag], the insertion into the target
    team is requested with [flag], and the store then holds the member in
    the target team with that flag. *)
Theorem move_keeps_leader_flag (faults : Api.Faults) (w : World) (member : Z)
        (new_team_name : string) (target : Api.Team) (team : Api.CurrentTeam)
        (flag : bool) :
  Api.find_team faults (db w) new_team_name = Api.Ok target ->
  Api.current_team faults (db w) member = Api.Ok team ->
  In (Api.mkUser member flag) (Api.users (Api.team team)) ->
  (forall u, In u (Api.users (Api.team team)) ->
             Api.user_id u = member -> Api.is_leader u = flag) ->
  fst (exec (move faults member new_team_name) w) = Val tt ->
  leader_scan (Api.users (Api.team team)) member = flag
  /\ In (ApiOk (Api.PostTeamUser (Api.id target) member flag))
        (trace (snd (exec (move faults member new_team_name) w)))
  /\ exists t,
       In t (db (world (snd (exec (move faults member new_team_name) w))))
       /\ Api.id t = Api.id target
       /\ In (Api.mkUser member flag) (Api.users t).
Proof.
  intros Hfind Hcur Hin Hall.
  pose proof (leader_scan_flag _ _ _ Hin Hall) as Hscan.
  unfold move. run_cmd. rewrite Hfind. run_cmd. rewrite Hcur. run_cmd.
  rewrite Hscan.
  destruct (Api.delete_user faults (db w) _ _) as [[[]|st] db1]; run_cmd;
    [|repeat case_status; discriminate].
  case_role; run_cmd; [|discriminate].
  destruct (Api.post_user faults db1 _ _ _) as [[[]|st] db2] eqn:Hpost; run_cmd;
    [|repeat case_status; discriminate].
  case_role; run_cmd; [|discriminate].
  intros _. split; [reflexivity|]. split.
  - simpl. auto 10.
  - exact (post_user_ok _ _ _ _ _ _ Hpost).
Qed.

Lemma move_keeps_leader_flag_witness :
  In (ApiOk (Api.PostTeamUser 2 1 true))
     (trace (snd (exec (move Sample.no_faults 1 "Team B") Sample.world))).
Proof.
  exact (proj1 (proj2 (move_keeps_leader_flag Sample.no_faults Sample.world 1
                         "Team B" Sample.team_b
                         (Api.mkCurrentTeam 1 Sample.team_a) true
                         eq_refl eq_refl (or_introl eq_refl)
                         ltac:(intros u [<-|[<-|[]]]; simpl; [reflexivity|discriminate])
                         eq_refl))).
Defined.

(** ** [remove], continued *)

Lemma remove_aborts_on_404_witness :
  exec (remove Sample.leaders Sample.delete_404 1) Sample.world
  = (Return,
     mkSt Sample.world
          [ApiOk (Api.GetCurrentTeam 1);
           ApiErr (Api.DeleteTeamUser 1 1) 404;
           Send ":x: Team or user could not be found!"]).
Proof.
  exact (remove_aborts_on_404 Sample.leaders Sample.delete_404 Sample.world 1
           (Api.mkCurrentTeam 1 Sample.team_a) eq_refl eq_refl).
Defined.

(** C3, as stated, fails: with the deletion answered 404 for a member who
    holds the team's role and the leaders' role, [remove] reports and
    returns, and no role removal takes place. *)
Lemma remove_404_skips_roles :
  In (ApiErr (Api.DeleteTeamUser 1 1) 404)
     (trace (snd (exec (remove Sample.leaders Sample.delete_404 1) Sample.world)))
  /\ In (Send ":x: Team or user could not be found!")
        (trace (snd (exec (remove Sample.leaders Sample.delete_404 1) Sample.world)))
  /\ ~ (exists role,
          In (RemoveRoles 1 role)
             (trace (snd (exec (remove Sample.leaders Sample.delete_404 1)
                               Sample.world))))
  /\ member_roles
       (world (snd (exec (remove Sample.leaders Sample.delete_404 1) Sample.world)))
     !! 1 = Some [Sample.role_a; Sample.role_leader].
Proof.
  split; [|split; [|split]].
  - vm_compute. auto.
  - vm_compute. auto.
  - intros [role H]. vm_compute in H.
    destruct H as [H|[H|[H|[]]]]; discriminate.
  - vm_compute. reflexivity.
Qed.

(** ** [end] *)

(** What [jam_roles] answers and leaves in the trace. *)
Lemma jam_roles_run faults s :
  jam_roles faults s
  = match Api.get_teams faults (db (world s)) with
    | Api.Ok roles_raw =>
        (Val (Some (omap (fun role =>
                            get_role (guild (world s))
                                     (Api.discord_role_id role)) roles_raw)),
         mkSt (world s) (trace s ++ [ApiOk Api.GetTeams]))
    | Api.Err status =>
        (Val None,
         mkSt (world s)
              ((trace s ++ [ApiErr Api.GetTeams status]) ++ [Log ERROR]))
    end.
Proof.
  run_end. destruct (Api.get_teams faults (db (world s))); reflexivity.
Qed.

(** C8. With no jam category in the guild and no role from [jam_roles]
    (an empty list, or no list because the request failed), [end] sends
    the refusal and returns: no confirmation is shown, no view acts, and
    the world is what it was. *)
Theorem end_refuses_when_nothing_to_delete
        (CATEGORY_NAME : string) (faults : Api.Faults)
        (paste : string -> option string) (author : Z)
        (inputs : list Views.Input) (w : World) (roles : option (list Role)) :
  jam_categories CATEGORY_NAME (guild w) = [] ->
  fst (exec (jam_roles faults) w) = Val roles ->
  roles = None \/ roles = Some [] ->
  exec (end_ CATEGORY_NAME faults paste author inputs) w
  = (Return,
     mkSt w (trace (snd (exec (jam_roles faults) w))
             ++ [Send nothing_to_delete]))
  /\ forallb (fun e => negb (is_view_event e))
             (trace (snd (exec (end_ CATEGORY_NAME faults paste author inputs) w)))
     = true.
Proof.
  intros Hcat Hroles Hzero.
  assert (Hrun : exec (end_ CATEGORY_NAME faults paste author inputs) w
                 = (Return,
                    mkSt w (trace (snd (exec (jam_roles faults) w))
                            ++ [Send nothing_to_delete]))).
  { unfold exec in *. unfold end_. unfold bind at 1. unfold get_world at 1.
    cbn [world]. rewrite Hcat. unfold bind at 1.
    rewrite jam_roles_run in *. cbn [world trace db guild] in *.
    destruct (Api.get_teams faults (db w)) as [raw|st]; cbn [fst snd] in *;
      injection Hroles as <-.
    - destruct Hzero as [Hz|Hz]; [discriminate|]. injection Hz as Hz. rewrite Hz.
      run_end. destruct w; reflexivity.
    - run_end. destruct w; reflexivity. }
  split; [exact Hrun|].
  rewrite Hrun. cbn [snd trace]. unfold exec. rewrite jam_roles_run.
  destruct (Api.get_teams faults (db (world (mkSt w [])))); reflexivity.
Qed.

Lemma end_refuses_when_nothing_to_delete_witness :
  exec (end_ Sample.category Sample.no_faults Sample.paste 1
             [Views.Click 1 Views.Confirm]) Sample.empty_world
  = (Return,
     mkSt Sample.empty_world
          (trace (snd (exec (jam_roles Sample.no_faults) Sample.empty_world))
           ++ [Send nothing_to_delete])).
Proof.
  exact (proj1 (end_refuses_when_nothing_to_delete Sample.category
                  Sample.no_faults Sample.paste 1 [Views.Click 1 Views.Confirm]
                  Sample.empty_world (Some []) eq_refl eq_refl
                  (or_intror eq_refl))).
Defined.

(** C10. When [end] passes its precondition and the view it shows comes to
    a stop, by the author's [confirm], by the author's [cancel] or by the
    timeout, [end] finishes, and the last thing it does, after the view's
    effects, is to send the announcement that the jam has ended: the
    announcement does not depend on which of these stopped the view. *)
Theorem end_announces_once_view_stops
        (CATEGORY_NAME : string) (faults : Api.Faults)
        (paste : string -> option string) (author : Z)
        (inputs : list Views.Input) (w : World) (roles : list Role) :
  fst (exec (jam_roles faults) w) = Val (Some roles) ->
  jam_categories CATEGORY_NAME (guild w) <> [] \/ roles <> [] ->
  let confirm_view :=
    Views.init
      (Views.JamEndConfirmation
         (map (fun category => (category, channels category))
              (jam_categories CATEGORY_NAME (guild w)))
         roles) author in
  Views.stopped (fst (Views.run confirm_view inputs)) = true ->
  fst (exec (end_ CATEGORY_NAME faults paste author inputs) w) = Val tt
  /\ exists details url,
       trace (snd (exec (end_ CATEGORY_NAME faults paste author inputs) w))
       = [ApiOk Api.GetTeams; Paste details;
          SendView "Are you sure?" url confirm_view]
         ++ map Ui (snd (Views.run confirm_view inputs))
         ++ [Send officially_ended].
Proof.
  intros Hroles Hpass confirm_view Hstop.
  assert (Hguard :
            match jam_categories CATEGORY_NAME (guild w) with
            | [] => true | _ => false end
            && match roles with [] => true | _ => false end = false).
  { destruct (jam_categories CATEGORY_NAME (guild w)); [|reflexivity].
    destruct roles; [|reflexivity].
    destruct Hpass as [H|H]; congruence. }
  assert (Hrun : exists details url,
             exec (end_ CATEGORY_NAME faults paste author inputs) w
             = (Val tt,
                mkSt w ([ApiOk Api.GetTeams; Paste details;
                         SendView "Are you sure?" url confirm_view]
                          ++ map Ui (snd (Views.run confirm_view inputs))
                          ++ [Send officially_ended]))).
  { unfold exec in *. rewrite jam_roles_run in Hroles.
    cbn [world trace db guild] in Hroles.
    unfold end_. unfold bind at 1. unfold get_world at 1. cbn [world].
    unfold bind at 1. rewrite jam_roles_run. cbn [world trace db guild].
    destruct (Api.get_teams faults (db w)) as [raw|st]; cbn [fst] in Hroles;
      [|discriminate].
    injection Hroles as Hroles. rewrite Hroles, Hguard. fold confirm_view.
    run_end. fold confirm_view.
    destruct (Views.run confirm_view inputs) as [v' effects].
    cbn [fst snd] in *. rewrite Hstop.
    run_end. eexists _, _. reflexivity. }
  destruct Hrun as (details & url & Hrun). rewrite Hrun.
  split; [reflexivity|]. exists details, url. reflexivity.
Qed.

Lemma end_announces_once_view_stops_witness :
  fst (exec (end_ Sample.category Sample.no_faults Sample.paste 1
                  [Views.Click 2 Views.Confirm; Views.Click 1 Views.Cancel])
            Sample.world) = Val tt.
Proof.
  refine (proj1 (end_announces_once_view_stops Sample.category Sample.no_faults
                  Sample.paste 1
                  [Views.Click 2 Views.Confirm; Views.Click 1 Views.Cancel]
                  Sample.world [Sample.role_a; Sample.role_b]
                  _ _ _)).
  - vm_compute; reflexivity.
  - left; discriminate.
  - vm_compute; reflexivity.
Defined.

(** ** The roster *)

Lemma upper_eq_Y v :
  String.eqb (Py.upper v) "Y" = String.eqb v "Y" || String.eqb v "y".
Proof.
  destruct v as [|c [|c' v']]; simpl.
  - reflexivity.
  - rewrite upper_char_Y.
    destruct (Ascii.eqb c "Y"), (Ascii.eqb c "y"); reflexivity.
  - destruct (Ascii.eqb (Py.to_upper c) "Y"), (Ascii.eqb c "Y"),
      (Ascii.eqb c "y"); reflexivity.
Qed.

Section ReadRows.

Variable int : string -> option Z.

Lemma team_rows_skip g row rest name :
  resolve int g row = None ->
  team_rows int g (row :: rest) name = team_rows int g rest name.
Proof. intros H. unfold team_rows. simpl. rewrite H. reflexivity. Qed.

Lemma team_rows_keep g row rest name m :
  resolve int g row = Some m ->
  row !! "Team Name" = Some name ->
  team_rows int g (row :: rest) name = row :: team_rows int g rest name.
Proof.
  intros H Ht. unfold team_rows. simpl. rewrite H, Ht, String.eqb_refl.
  reflexivity.
Qed.

Lemma team_rows_other g row rest name team :
  row !! "Team Name" = Some team -> team <> name ->
  team_rows int g (row :: rest) name = team_rows int g rest name.
Proof.
  intros Ht Hne. unfold team_rows. simpl. rewrite Ht.
  apply String.eqb_neq in Hne. rewrite Hne.
  destruct (resolve int g row); reflexivity.
Qed.

(** The loop leaves the world alone, and under each name the map holds
    what it held followed by the entries of the name's resolved rows;
    a name without resolved rows is left as it was. *)
Lemma read_rows_lookup rows : forall teams s teams' s',
  read_rows int rows teams s = (Val teams', s') ->
  world s' = world s
  /\ forall name, exists es,
       Forall2 (entry_of int (guild (world s)))
               (team_rows int (guild (world s)) rows name) es
       /\ teams' !! name
          = match es with
            | [] => teams !! name
            | _ => Some (default [] (teams !! name) ++ es)
            end.
Proof.
  induction rows as [|row rest IH]; intros teams s teams' s'.
  - simpl. unfold ret. intros [= <- <-]. split; [reflexivity|].
    intros name. exists []. split; [constructor|reflexivity].
  - cbn [read_rows]. unfold bind at 1, item at 1, resolve.
    destruct (row !! "Team Member Discord ID") as [id_field|] eqn:Hid;
      [|unfold raise; discriminate].
    unfold ret at 1. unfold bind at 1, py_int.
    destruct (int id_field) as [id|] eqn:Hint;
      [|unfold raise; discriminate].
    unfold ret at 1. unfold bind at 1, get_world at 1.
    destruct (get_or_fetch_member (guild (world s)) id) as [m|] eqn:Hm.
    + unfold bind at 1, item at 1.
      destruct (row !! "Team Name") as [team|] eqn:Hteam;
        [|unfold raise; discriminate].
      unfold ret at 1. unfold bind at 1, item at 1.
      destruct (row !! "Team Leader") as [leader|] eqn:Hleader;
        [|unfold raise; discriminate].
      unfold ret at 1. intros Hrun.
      destruct (IH _ _ _ _ Hrun) as [Hw Hlook].
      split; [exact Hw|]. intros name.
      destruct (Hlook name) as (es & Hes & Hname).
      assert (Hres : resolve int (guild (world s)) row = Some m).
      { unfold resolve. rewrite Hid, Hint. exact Hm. }
      destruct (String.eqb_spec team name) as [->|Hne].
      * exists (mkEntry m (String.eqb (Py.upper leader) "Y") :: es). split.
        -- rewrite (team_rows_keep _ _ _ _ _ Hres Hteam).
           constructor; [|exact Hes].
           split; [exact Hres|]. simpl. unfold flagged. rewrite Hleader.
           apply upper_eq_Y.
        -- rewrite Hname, lookup_insert_eq. simpl.
           destruct es; [reflexivity|]. rewrite <- app_assoc. reflexivity.
      * exists es. split.
        -- rewrite (team_rows_other _ _ _ _ _ Hteam Hne). exact Hes.
        -- rewrite Hname, lookup_insert_ne by exact Hne. reflexivity.
    + unfold bind at 1, log, emit. intros Hrun.
      destruct (IH _ _ _ _ Hrun) as [Hw Hlook]. cbn [world] in *.
      split; [exact Hw|]. intros name.
      assert (Hres : resolve int (guild (world s)) row = None).
      { unfold resolve. rewrite Hid, Hint. exact Hm. }
      rewrite (team_rows_skip _ _ _ _ Hres). exact (Hlook name).
Qed.

(** From the empty map: a name is a key exactly when it has a resolved
    row, and it then maps to the entries of its resolved rows. *)
Lemma read_rows_empty rows w teams s' :
  read_rows int rows ∅ (mkSt w []) = (Val teams, s') ->
  world s' = w
  /\ forall name, exists es,
       Forall2 (entry_of int (guild w)) (team_rows int (guild w) rows name) es
       /\ teams !! name = match es with [] => None | _ => Some es end.
Proof.
  intros Hrun. destruct (read_rows_lookup _ _ _ _ _ Hrun) as [Hw Hlook].
  split; [exact Hw|]. intros name.
  destruct (Hlook name) as (es & Hes & Hname). exists es.
  split; [exact Hes|]. rewrite Hname, lookup_empty. reflexivity.
Qed.

Lemma team_rows_In g rows name row :
  In row (team_rows int g rows name)
  <-> In row rows /\ row !! "Team Name" = Some name
      /\ is_Some (resolve int g row).
Proof.
  unfold team_rows. rewrite List.filter_In. split.
  - intros [Hin Hb]. split; [exact Hin|].
    destruct (resolve int g row); [|discriminate].
    destruct (row !! "Team Name") as [team|]; [|discriminate].
    apply String.eqb_eq in Hb. subst. eauto.
  - intros (Hin & Ht & [m Hm]). split; [exact Hin|].
    rewrite Hm, Ht. apply String.eqb_refl.
Qed.

End ReadRows.

Section Roster.

Variable int : string -> option Z.

Lemma read_rows_key rows w teams s' name :
  read_rows int rows ∅ (mkSt w []) = (Val teams, s') ->
  match teams !! name with
  | Some es =>
      es <> [] /\ Forall2 (entry_of int (guild w))
                          (team_rows int (guild w) rows name) es
  | None => team_rows int (guild w) rows name = []
  end.
Proof.
  intros Hrun. destruct (read_rows_empty _ _ _ _ _ Hrun) as [_ Hlook].
  destruct (Hlook name) as (es & Hes & ->).
  destruct es; [inversion Hes; reflexivity|].
  split; [discriminate|exact Hes].
Qed.

Lemma flagged_iff (row : gmap string string) :
  flagged row = true
  <-> row !! "Team Leader" = Some "Y" \/ row !! "Team Leader" = Some "y".
Proof.
  unfold flagged. destruct (row !! "Team Leader") as [v|].
  - rewrite orb_true_iff, !String.eqb_eq. split; intros [H|H]; [left|right|left|right]; congruence.
  - split; [discriminate|intros [H|H]; discriminate].
Qed.

Lemma filter_length_Forall2 {X Y} (R : X -> Y -> Prop) p q xs ys :
  Forall2 R xs ys -> (forall x y, R x y -> p x = q y) ->
  length (List.filter p xs) = length (List.filter q ys).
Proof.
  intros HF HR. induction HF as [|x y xs ys Hxy _ IH]; simpl; [reflexivity|].
  rewrite (HR _ _ Hxy). destruct (q y); simpl; congruence.
Qed.

End Roster.

(** C2, as stated, fails: the only row of the roster names team "A" and a
    member id that resolves to nobody; the loop ends with the empty
    mapping, "A" is no key of it, and the operator is shown 0 teams. *)
Lemma unresolved_team_is_no_key :
  (exists row, In row Sample.ghost_roster /\ row !! "Team Name" = Some "A")
  /\ read_rows Sample.int Sample.ghost_roster ∅ (mkSt Sample.world [])
     = (Val ∅, mkSt Sample.world [Log TRACE])
  /\ ("A" ∉ dom (∅ : gmap string (list Entry)))
  /\ exec (create Sample.int 1 Sample.ghost_roster) Sample.world
     = (Val tt,
        mkSt Sample.world
             [Log TRACE;
              SendView "Warning!"
                       "0 teams, and roles will be created, are you sure?"
                       (Views.init (Views.JamCreationConfirmation ∅) 1)]).
Proof.
  split; [|split; [|split]].
  - eexists. split; [left; reflexivity|]. vm_compute. reflexivity.
  - vm_compute. reflexivity.
  - rewrite dom_empty_L. apply not_elem_of_empty.
  - vm_compute. reflexivity.
Qed.

(** C2, amended. When the loop over the rows ends, a name is a key of the
    mapping exactly when some row carries it together with a member id
    that resolves; every key maps to a list that is not empty; and
    [create] shows the operator the number of these keys. *)
Theorem teams_are_those_with_a_resolved_member
        (int : string -> option Z) (author : Z) (w : World)
        (rows : list (gmap string string))
        (teams : gmap string (list Entry)) (s' : St) :
  read_rows int rows ∅ (mkSt w []) = (Val teams, s') ->
  (forall name,
      name ∈ dom teams
      <-> exists row, In row rows /\ row !! "Team Name" = Some name
                      /\ is_Some (resolve int (guild w) row))
  /\ (forall name es, teams !! name = Some es -> es <> [])
  /\ exec (create int author rows) w
     = (Val tt,
        mkSt w (trace s'
                ++ [SendView "Warning!"
                      (pretty (size teams)
                       +:+ " teams, and roles will be created, are you sure?")
                      (Views.init (Views.JamCreationConfirmation teams)
                                  author)])).
Proof.
  intros Hrun. split; [|split].
  - intros name. rewrite elem_of_dom.
    pose proof (read_rows_key int _ _ _ _ name Hrun) as Hkey.
    destruct (teams !! name) as [es|] eqn:Hname.
    + destruct Hkey as [Hne HF]. split; [intros _|eauto].
      destruct (team_rows int (guild w) rows name) as [|row rest] eqn:Hrows.
      { inversion HF. congruence. }
      exists row. apply (team_rows_In int (guild w) rows name row).
      rewrite Hrows. left. reflexivity.
    + split; [intros [? ?]; discriminate|].
      intros (row & Hrow). apply team_rows_In in Hrow.
      rewrite Hkey in Hrow. destruct Hrow.
  - intros name es Hname.
    pose proof (read_rows_key int _ _ _ _ name Hrun) as Hkey.
    rewrite Hname in Hkey. tauto.
  - destruct (read_rows_empty _ _ _ _ _ Hrun) as [Hw _].
    unfold exec, create. unfold bind. rewrite Hrun.
    unfold emit, warning_description. rewrite Hw. reflexivity.
Qed.

Lemma teams_are_those_with_a_resolved_member_witness :
  exec (create Sample.int 1 Sample.ghost_roster) Sample.world
  = (Val tt,
     mkSt Sample.world
          ([Log TRACE]
           ++ [SendView "Warning!"
                 (pretty (size (∅ : gmap string (list Entry)))
                  +:+ " teams, and roles will be created, are you sure?")
                 (Views.init (Views.JamCreationConfirmation ∅) 1)])).
Proof.
  refine (proj2 (proj2 (teams_are_those_with_a_resolved_member Sample.int 1
                          Sample.world Sample.ghost_roster ∅
                          (mkSt Sample.world [Log TRACE]) _))).
  vm_compute. reflexivity.
Defined.

(** C5. When the resolved rows of the roster are two rows of team [A], one
    of them flagged, and one row of team [B], the mapping has the two keys
    [A] and [B]; [A] has two entries, exactly one of them a leader, and
    [B] has one. Each entry comes from a resolved row of its team, in the
    roster's order, and is a leader iff the row's "Team Leader" value is
    "Y" or "y". A row whose member id does not resolve gives no entry,
    and its team name, when no resolved row carries it, is no key. *)
Theorem roster_two_teams
        (int : string -> option Z) (w : World)
        (rows : list (gmap string string)) (A B : string)
        (teams : gmap string (list Entry)) (s' : St) :
  read_rows int rows ∅ (mkSt w []) = (Val teams, s') ->
  A <> B ->
  length (team_rows int (guild w) rows A) = 2%nat ->
  length (List.filter flagged (team_rows int (guild w) rows A)) = 1%nat ->
  length (team_rows int (guild w) rows B) = 1%nat ->
  (forall name, name <> A -> name <> B ->
                team_rows int (guild w) rows name = []) ->
  dom teams = {[A; B]}
  /\ size teams = 2%nat
  /\ (exists e1 e2,
         teams !! A = Some [e1; e2]
         /\ length (List.filter is_leader [e1; e2]) = 1%nat)
  /\ (exists e, teams !! B = Some [e])
  /\ (forall name es,
         teams !! name = Some es ->
         Forall2 (fun row e =>
                    resolve int (guild w) row = Some (member e)
                    /\ (is_leader e = true
                        <-> row !! "Team Leader" = Some "Y"
                            \/ row !! "Team Leader" = Some "y"))
                 (team_rows int (guild w) rows name) es)
  /\ (forall row name,
         In row rows -> row !! "Team Name" = Some name ->
         resolve int (guild w) row = None ->
         name <> A -> name <> B -> teams !! name = None).
Proof.
  intros Hrun HAB HA Hlead HB Hother.
  pose proof (fun name => read_rows_key int _ _ _ _ name Hrun) as Hkey.
  assert (HkA : exists e1 e2, teams !! A = Some [e1; e2]
                /\ Forall2 (entry_of int (guild w))
                           (team_rows int (guild w) rows A) [e1; e2]).
  { specialize (Hkey A). destruct (teams !! A) as [es|].
    - destruct Hkey as [_ HF]. pose proof (Forall2_length _ _ _ HF) as Hlen.
      rewrite HA in Hlen. destruct es as [|e1 [|e2 [|]]]; try discriminate.
      eauto.
    - rewrite Hkey in HA. discriminate. }
  assert (HkB : exists e, teams !! B = Some [e]).
  { specialize (Hkey B). destruct (teams !! B) as [es|].
    - destruct Hkey as [_ HF]. pose proof (Forall2_length _ _ _ HF) as Hlen.
      rewrite HB in Hlen. destruct es as [|e [|]]; try discriminate.
      eauto.
    - rewrite Hkey in HB. discriminate. }
  assert (Hnone : forall name, name <> A -> name <> B -> teams !! name = None).
  { intros name HnA HnB. specialize (Hkey name).
    destruct (teams !! name) as [es|]; [|reflexivity].
    destruct Hkey as [Hne HF]. rewrite (Hother name HnA HnB) in HF.
    inversion HF. congruence. }
  assert (Hdom : dom teams = {[A; B]}).
  { apply set_eq. intros name. rewrite elem_of_dom, elem_of_union,
      !elem_of_singleton.
    destruct HkA as (e1 & e2 & HeA & _). destruct HkB as (e & HeB).
    split.
    - intros [es Hes].
      destruct (decide (name = A)) as [|HnA]; [auto|].
      destruct (decide (name = B)) as [|HnB]; [auto|].
      rewrite (Hnone name HnA HnB) in Hes. discriminate.
    - intros [->| ->]; eauto. }
  split; [exact Hdom|]. split.
  { rewrite <- size_dom, Hdom, size_union, !size_singleton; [reflexivity|].
    apply disjoint_singleton_l. rewrite elem_of_singleton. exact HAB. }
  split.
  { destruct HkA as (e1 & e2 & HeA & HF). exists e1, e2.
    split; [exact HeA|]. rewrite <- Hlead. symmetry.
    apply (filter_length_Forall2 _ _ _ _ _ HF).
    intros row e [_ He]. symmetry. exact He. }
  split; [exact HkB|]. split.
  - intros name es Hes. specialize (Hkey name). rewrite Hes in Hkey.
    destruct Hkey as [_ HF].
    apply (Forall2_impl _ _ _ _ HF).
    intros row e [Hres He]. split; [exact Hres|].
    rewrite He. apply flagged_iff.
  - intros row name _ _ _ HnA HnB. exact (Hnone name HnA HnB).
Qed.

Lemma roster_two_teams_witness :
  size (<["A" := [mkEntry Sample.ann true; mkEntry Sample.bob false]]>
          (<["B" := [mkEntry Sample.cem false]]>
             (∅ : gmap string (list Entry)))) = 2%nat.
Proof.
  refine (proj1 (proj2 (roster_two_teams Sample.int Sample.world Sample.roster
                          "A" "B" _ (mkSt Sample.world [Log TRACE])
                          _ _ _ _ _ _))).
  - vm_compute. reflexivity.
  - discriminate.
  - vm_compute. reflexivity.
  - vm_compute. reflexivity.
  - vm_compute. reflexivity.
  - intros name HA HB.
    destruct (team_rows Sample.int (guild Sample.world) Sample.roster name)
      as [|row rest] eqn:Hrows; [reflexivity|exfalso].
    assert (Hin : In row (team_rows Sample.int (guild Sample.world)
                                    Sample.roster name))
      by (rewrite Hrows; left; reflexivity).
    apply team_rows_In in Hin as (Hin & Hname & [m Hm]).
    destruct Hin as [<-|[<-|[<-|[<-|[]]]]]; vm_compute in Hname, Hm;
      congruence.
Defined.

(** * Further properties *)

(** ** The views, whatever they receive *)

Section ViewRuns.

Import Views.

Lemma on_confirm_acts v :
  (length (List.filter acts (snd (on_confirm v))) <= 1)%nat.
Proof.
  unfold on_confirm. destruct (cls v) as [[ch|]| |]; simpl; lia.
Qed.

(** What one input does to a pending view: it is turned away with the
    notice, or it stops the view, acting at most once and only on the
    author's press of [confirm]. *)
Lemma dispatch_pending v i :
  stopped v = false ->
  (foreign v i = true /\ dispatch v i = (v, [SendMessage not_yours true]))
  \/ (stopped (fst (dispatch v i)) = true
      /\ cls (fst (dispatch v i)) = cls v
      /\ original_author (fst (dispatch v i)) = original_author v
      /\ (length (List.filter acts (snd (dispatch v i))) <= 1)%nat
      /\ (i <> Click (original_author v) Confirm ->
          List.filter acts (snd (dispatch v i)) = [])).
Proof.
  intros Hs. destruct i as [user item|].
  - destruct (user =? original_author v) eqn:Hu.
    + right. apply Z.eqb_eq in Hu. subst user.
      destruct item.
      * unfold dispatch, interaction_check. rewrite Hs, Z.eqb_refl.
        cbn [negb fst snd app]. repeat split; simpl; auto.
      * rewrite (dispatch_confirm v Hs).
        repeat split; auto using on_confirm_acts.
        intros Hne. exfalso. apply Hne. reflexivity.
    + left. split; [simpl; rewrite Hu; reflexivity|].
      apply dispatch_foreign; [exact Hs|]. simpl. rewrite Hu. reflexivity.
  - right. unfold dispatch. rewrite Hs. simpl. repeat split; auto.
Qed.

Lemma run_cons v i rest :
  run v (i :: rest)
  = (fst (run (fst (dispatch v i)) rest),
     snd (dispatch v i) ++ snd (run (fst (dispatch v i)) rest)).
Proof.
  simpl. destruct (dispatch v i) as [v1 e1]. simpl.
  destruct (run v1 rest); reflexivity.
Qed.


Lemma is_confirm_press v i :
  i = Click (original_author v) Confirm \/ i <> Click (original_author v) Confirm.
Proof.
  destruct i as [user [|]|]; try (right; discriminate).
  destruct (Z.eq_dec user (original_author v)) as [->|Hne]; [left; reflexivity|].
  right. intros [= H]. exact (Hne H).
Qed.

Lemma run_acts_need_confirm inputs : forall v,
  List.filter acts (snd (run v inputs)) <> [] ->
  stopped v = false /\ In (Click (original_author v) Confirm) inputs.
Proof.
  induction inputs as [|i rest IH]; intros v; [simpl; congruence|].
  destruct (stopped v) eqn:Hs.
  { rewrite run_stopped by exact Hs. simpl. congruence. }
  rewrite run_cons. cbn [snd]. rewrite List.filter_app.
  intros Hacts. split; [reflexivity|].
  destruct (dispatch_pending v i Hs) as [[_ Hd]|(Hs' & _ & _ & _ & Hno)].
  - rewrite Hd in Hacts. cbn [fst snd] in Hacts. simpl in Hacts.
    right. apply (IH v Hacts).
  - rewrite (run_stopped _ rest Hs') in Hacts. cbn [snd] in Hacts.
    simpl in Hacts. rewrite app_nil_r in Hacts.
    destruct (is_confirm_press v i) as [->|Hne'].
    + left. reflexivity.
    + rewrite (Hno Hne') in Hacts. congruence.
Qed.

Lemma on_confirm_carries v e :
  In e (snd (on_confirm v)) -> carries (cls v) e.
Proof.
  unfold on_confirm. destruct (cls v) as [[ch|]| |]; simpl;
    intros [<-|[<-|[]]]; simpl; auto.
Qed.

Lemma dispatch_carries v i e :
  In e (snd (dispatch v i)) -> carries (cls v) e.
Proof.
  unfold dispatch, interaction_check. destruct (stopped v); [intros []|].
  destruct i as [user item|]; [|intros []].
  destruct (negb (user =? original_author v)).
  - intros [<-|[]]. exact I.
  - destruct item; cbn [fst snd app].
    + intros [<-|[]]. exact I.
    + apply on_confirm_carries.
Qed.

Lemma dispatch_keeps v i :
  cls (fst (dispatch v i)) = cls v
  /\ original_author (fst (dispatch v i)) = original_author v.
Proof.
  unfold dispatch, interaction_check. destruct (stopped v); [auto|].
  destruct i as [user item|]; [|auto].
  destruct (negb (user =? original_author v)); [auto|].
  destruct item; auto.
Qed.

Lemma run_keeps inputs : forall v,
  cls (fst (run v inputs)) = cls v
  /\ original_author (fst (run v inputs)) = original_author v.
Proof.
  induction inputs as [|i rest IH]; intros v; [auto|].
  rewrite run_cons. cbn [fst].
  destruct (IH (fst (dispatch v i))) as [-> ->]. apply dispatch_keeps.
Qed.

Lemma run_carries inputs : forall v e,
  In e (snd (run v inputs)) -> carries (cls v) e.
Proof.
  induction inputs as [|i rest IH]; intros v e; [intros []|].
  rewrite run_cons. cbn [snd]. intros [H|H]%in_app_or.
  - exact (dispatch_carries _ _ _ H).
  - rewrite <- (proj1 (dispatch_keeps v i)). exact (IH _ _ H).
Qed.

Lemma dispatch_buttons v i :
  buttons_agree v -> buttons_agree (fst (dispatch v i)).
Proof.
  intros Hv. unfold dispatch, interaction_check.
  destruct (stopped v) eqn:Hs; [exact Hv|].
  destruct i as [user item|].
  - destruct (negb (user =? original_author v)); [exact Hv|].
    destruct item; split; reflexivity.
  - destruct Hv as [Heq Hd]. split; [exact Heq|reflexivity].
Qed.

Lemma run_buttons inputs : forall v,
  buttons_agree v -> buttons_agree (fst (run v inputs)).
Proof.
  induction inputs as [|i rest IH]; intros v Hv; [exact Hv|].
  rewrite run_cons. cbn [fst]. apply IH, dispatch_buttons, Hv.
Qed.

End ViewRuns.

Lemma callbacks_le_acts effects :
  (Views.callbacks effects <= length (List.filter acts effects))%nat.
Proof.
  unfold Views.callbacks.
  induction effects as [|e rest IH]; simpl; [lia|].
  destruct e; simpl; lia.
Qed.



(** X2. A view acts only on its author's press of [confirm]: when the
    inputs hold no such press, whatever else they hold (presses by others,
    the author's [cancel], the timeout), no callback is invoked and
    nothing is announced. *)
Theorem view_acts_only_on_author_confirm (v : Views.View)
        (inputs : list Views.Input) :
  ~ In (Views.Click (Views.original_author v) Views.Confirm) inputs ->
  List.filter acts (snd (Views.run v inputs)) = []
  /\ Views.callbacks (snd (Views.run v inputs)) = 0%nat.
Proof.
  intros Hno.
  assert (H : List.filter acts (snd (Views.run v inputs)) = []).
  { destruct (List.filter acts (snd (Views.run v inputs))) eqn:E;
      [reflexivity|exfalso].
    apply Hno, (run_acts_need_confirm inputs v). rewrite E. discriminate. }
  split; [exact H|].
  pose proof (callbacks_le_acts (snd (Views.run v inputs))) as H'.
  rewrite H in H'. simpl in H'. lia.
Qed.

Lemma view_acts_only_on_author_confirm_witness :
  Views.callbacks
    (snd (Views.run Sample.end_view
            [Views.Click 2 Views.Confirm; Views.TimedOut;
             Views.Click 1 Views.Cancel])) = 0%nat.
Proof.
  refine (proj2 (view_acts_only_on_author_confirm Sample.end_view
                   [Views.Click 2 Views.Confirm; Views.TimedOut;
                    Views.Click 1 Views.Cancel] _)).
  simpl. intros [H|[H|[H|[]]]]; discriminate.
Defined.

Lemma view_payload c author inputs e :
  In e (snd (Views.run (Views.init c author) inputs)) -> carries c e.
Proof. exact (run_carries inputs (Views.init c author) e). Qed.

(** X3. What a view hands to its callback is what it was built with: from
    a fresh view, every callback effect carries the teams, or the category
    snapshot and the roles, given to the constructor, and an announcement
    goes to the channel the view resolved. *)
Theorem view_acts_on_its_payload (c : Views.ViewClass) (author : Z)
        (inputs : list Views.Input) (e : Views.Effect) :
  In e (snd (Views.run (Views.init c author) inputs)) -> carries c e.
Proof. intros H. exact (run_carries inputs (Views.init c author) e H). Qed.

Lemma view_acts_on_its_payload_witness :
  carries (Views.JamEndConfirmation [] [Sample.role_a])
          (Views.EndCallback [] [Sample.role_a]).
Proof.
  refine (view_acts_on_its_payload (Views.JamEndConfirmation [] [Sample.role_a])
            1 [Views.Click 1 Views.Confirm] _ _).
  simpl. right. left. reflexivity.
Defined.

(** X4. From a fresh view and after any inputs, the two buttons are
    enabled together or disabled together, a disabled button means the
    view is stopped, and the class and the author are the constructor's. *)
Theorem view_buttons_disabled_together (c : Views.ViewClass) (author : Z)
        (inputs : list Views.Input) :
  buttons_agree (fst (Views.run (Views.init c author) inputs))
  /\ Views.cls (fst (Views.run (Views.init c author) inputs)) = c
  /\ Views.original_author (fst (Views.run (Views.init c author) inputs))
     = author.
Proof.
  split; [|exact (run_keeps inputs (Views.init c author))].
  apply run_buttons. split; [reflexivity|discriminate].
Qed.



(** X6. The author's press of [announce] on a fresh team-info
    confirmation stops the view and shows both buttons disabled before it
    looks for the announcements channel: with the channel, the teams are
    announced there; without it the handler fails, nothing is announced,
    and the stopped view takes no further press. *)
Theorem announce_stops_before_it_announces
        (announcements : option Channel) (author : Z)
        (pre post : list Views.Input) :
  let v := Views.init (Views.JamTeamInfoConfirmation announcements) author in
  forallb (foreign v) pre = true ->
  let inputs := pre ++ Views.Click author Views.Confirm :: post in
  Views.stopped (fst (Views.run v inputs)) = true
  /\ snd (Views.run v inputs)
     = snd (Views.run v pre)
       ++ [Views.EditMessage
             (Views.mkButton "Cancel" true)
             (Views.mkButton "Teams have been announced!" true);
           match announcements with
           | Some channel => Views.AnnounceTeams channel
           | None => Views.HandlerError Py.AttributeError
           end].
Proof.
  intros v Hpre inputs.
  destruct (run_foreign v pre eq_refl Hpre) as [Hv _].
  assert (Hrun : Views.run v inputs
                 = (fst (Views.on_confirm v),
                    snd (Views.run v pre) ++ snd (Views.on_confirm v))).
  { assert (Hd : Views.dispatch v (Views.Click author Views.Confirm)
                 = Views.on_confirm v) by exact (dispatch_confirm v eq_refl).
    unfold inputs. rewrite run_app, Hv, run_cons, Hd.
    rewrite (run_stopped (fst (Views.on_confirm v)) post eq_refl).
    cbn [fst snd]. rewrite app_nil_r. reflexivity. }
  rewrite Hrun. split; [reflexivity|].
  cbn [snd]. f_equal. destruct announcements; reflexivity.
Qed.

Lemma announce_stops_before_it_announces_witness :
  Views.stopped
    (fst (Views.run (Views.init (Views.JamTeamInfoConfirmation None) 1)
            ([Views.Click 2 Views.Confirm]
               ++ Views.Click 1 Views.Confirm :: [Views.Click 1 Views.Confirm])))
  = true.
Proof.
  exact (proj1 (announce_stops_before_it_announces None 1
                  [Views.Click 2 Views.Confirm] [Views.Click 1 Views.Confirm]
                  eq_refl)).
Defined.

(** ** [remove], when the deletion succeeds *)

Lemma strip_all_filter leaders roles : forall held,
  strip_all leaders roles held
  = List.filter
      (fun r => negb (existsb (fun l => String.eqb (role_name l) leaders
                                        && (role_id r =? role_id l)) roles))
      held.
Proof.
  unfold strip_all.
  induction roles as [|l rest IH]; intros held; simpl.
  - induction held as [|r held IHh]; simpl; [reflexivity|].
    rewrite <- IHh. reflexivity.
  - rewrite IH. destruct (String.eqb (role_name l) leaders); simpl.
    + unfold drop_role. induction held as [|r held IHh]; simpl; [reflexivity|].
      destruct (role_id r =? role_id l); simpl; [exact IHh|].
      destruct (existsb _ rest); simpl; [exact IHh|]. rewrite IHh. reflexivity.
    + reflexivity.
Qed.

(** The loop that strips the leaders' role: it ends, changes only the
    roles of [member], and removes one by one the roles of the list that
    bear the leaders' name. *)
Lemma strip_leader_run leaders member roles : forall s,
  exists mr',
    strip_leader leaders member roles s
    = (Val tt,
       mkSt (mkWorld (guild (world s)) mr' (db (world s)))
            (trace s
             ++ map (RemoveRoles member)
                    (List.filter (fun l => String.eqb (role_name l) leaders)
                                 roles)))
    /\ mr' !! member
       = strip_all leaders roles <$> (member_roles (world s) !! member)
    /\ forall m, m <> member -> mr' !! m = member_roles (world s) !! m.
Proof.
  induction roles as [|l rest IH]; intros s.
  - exists (member_roles (world s)). simpl. unfold ret.
    rewrite app_nil_r. split; [destruct s as [[] ?]; reflexivity|].
    split; [|reflexivity].
    unfold strip_all. simpl. destruct (_ !! member); reflexivity.
  - cbn [strip_leader]. unfold bind at 1.
    destruct (String.eqb (role_name l) leaders) eqn:Hl.
    + run_cmd.
      destruct (IH (mkSt (mkWorld (guild (world s))
                                  (alter (drop_role l) member
                                         (member_roles (world s)))
                                  (db (world s)))
                         (trace s ++ [RemoveRoles member l])))
        as (mr' & Hrun & Hmem & Hoth).
      exists mr'. cbn [world trace guild db member_roles] in *.
      rewrite Hrun. simpl. rewrite Hl. simpl. rewrite <- app_assoc.
      split; [reflexivity|]. split.
      * rewrite Hmem, lookup_alter_eq. unfold strip_all. simpl. rewrite Hl.
        destruct (member_roles (world s) !! member); reflexivity.
      * intros m Hm. rewrite (Hoth m Hm), lookup_alter_ne by congruence.
        reflexivity.
    + unfold ret at 1.
      destruct (IH s) as (mr' & Hrun & Hmem & Hoth).
      exists mr'. rewrite Hrun. simpl. rewrite Hl.
      split; [reflexivity|]. split; [|exact Hoth].
      rewrite Hmem. unfold strip_all. simpl. rewrite Hl. reflexivity.
Qed.

(** X7. When the lookup and the deletion succeed and the team's role
    exists in the guild, [remove] ends with its success message. The
    member keeps exactly the roles that differ in id from the team's role
    and from the roles bearing the leaders' name that the member held, so
    none with the team role's id and none with the leaders' name; the
    roles of the other members are untouched, and the store is the one the
    deletion left. *)
Theorem remove_strips_team_and_leader_roles
        (leaders : string) (faults : Api.Faults) (w : World) (member : Z)
        (team : Api.CurrentTeam) (db1 : Api.Store) (team_role : Role) :
  Api.current_team faults (db w) member = Api.Ok team ->
  Api.delete_user faults (db w) (Api.id (Api.team team)) (Api.ct_user_id team)
  = (Api.Ok tt, db1) ->
  get_role (guild w) (Api.discord_role_id (Api.team team)) = Some team_role ->
  let r := exec (remove leaders faults member) w in
  fst r = Val tt
  /\ db (world (snd r)) = db1
  /\ member_roles (world (snd r)) !! member
     = kept_roles leaders team_role <$> (member_roles w !! member)
  /\ (forall role,
        In role (default [] (member_roles (world (snd r)) !! member)) ->
        role_id role <> role_id team_role /\ role_name role <> leaders)
  /\ (forall m, m <> member ->
                member_roles (world (snd r)) !! m = member_roles w !! m)
  /\ last (trace (snd r))
     = Some (Send ("Successfully removed " +:+ mention member
                   +:+ " from team " +:+ Api.name (Api.team team))).
Proof.
  intros Hteam Hdel Hrole r.
  destruct (strip_leader_run leaders member
              (default [] (alter (drop_role team_role) member (member_roles w)
                           !! member))
              (mkSt (mkWorld (guild w)
                             (alter (drop_role team_role) member
                                    (member_roles w)) db1)
                    [ApiOk (Api.GetCurrentTeam member);
                     ApiOk (Api.DeleteTeamUser (Api.id (Api.team team))
                                               (Api.ct_user_id team));
                     RemoveRoles member team_role]))
    as (mr' & Hrun & Hmem & Hoth).
  cbn [world trace guild db member_roles] in *.
  assert (Hexec : exists tr,
             r = (Val tt,
                  mkSt (mkWorld (guild w) mr' db1)
                       (tr ++ [Send ("Successfully removed " +:+ mention member
                                     +:+ " from team "
                                     +:+ Api.name (Api.team team))]))).
  { unfold r, remove. run_cmd. rewrite Hteam. run_cmd. rewrite Hdel. run_cmd.
    rewrite Hrole. run_cmd.
    rewrite Hrun. run_cmd. eexists (_ :: _ :: _ :: _). reflexivity. }
  destruct Hexec as [tr Hexec]. rewrite Hexec. cbn [fst snd world trace db member_roles].
  assert (Hkept : mr' !! member
                  = kept_roles leaders team_role <$> (member_roles w !! member)).
  { rewrite Hmem, lookup_alter_eq.
    destruct (member_roles w !! member) as [held|]; [|reflexivity].
    simpl. unfold kept_roles. rewrite strip_all_filter. reflexivity. }
  split; [reflexivity|]. split; [reflexivity|]. split; [exact Hkept|].
  split; [|split].
  - intros role. rewrite Hkept.
    destruct (member_roles w !! member) as [held|]; simpl; [|intros []].
    unfold kept_roles. rewrite List.filter_In. intros [Hin Hno].
    unfold drop_role in Hin at 1. apply List.filter_In in Hin as [Hheld Hid].
    split.
    + intros Heq. rewrite Heq, Z.eqb_refl in Hid. discriminate.
    + intros Hname. apply negb_true_iff in Hno.
      apply not_true_iff_false in Hno. apply Hno.
      apply existsb_exists. exists role. split.
      * unfold drop_role. apply List.filter_In. auto.
      * rewrite Hname, String.eqb_refl, Z.eqb_refl. reflexivity.
  - intros m Hm. rewrite (Hoth m Hm), lookup_alter_ne by congruence.
    reflexivity.
  - apply last_snoc.
Qed.

Lemma remove_strips_team_and_leader_roles_witness :
  member_roles
    (world (snd (exec (remove Sample.leaders Sample.no_faults 1) Sample.world)))
  !! 1
  = kept_roles Sample.leaders Sample.role_a
    <$> (member_roles Sample.world !! 1).
Proof.
  refine (proj1 (proj2 (proj2 (remove_strips_team_and_leader_roles
                                 Sample.leaders Sample.no_faults Sample.world 1
                                 (Api.mkCurrentTeam 1 Sample.team_a) _
                                 Sample.role_a _ _ _)))).
  - vm_compute. reflexivity.
  - vm_compute. reflexivity.
  - vm_compute. reflexivity.
Defined.

(** X8. When the team's role no longer exists in the guild, [remove]
    fails after the deletion: the membership record is gone from the
    store, no role is touched, no message is sent, and the command ends
    with the exception of [remove_roles(None)]. *)
Theorem remove_without_team_role_raises
        (leaders : string) (faults : Api.Faults) (w : World) (member : Z)
        (team : Api.CurrentTeam) (db1 : Api.Store) :
  Api.current_team faults (db w) member = Api.Ok team ->
  Api.delete_user faults (db w) (Api.id (Api.team team)) (Api.ct_user_id team)
  = (Api.Ok tt, db1) ->
  get_role (guild w) (Api.discord_role_id (Api.team team)) = None ->
  exec (remove leaders faults member) w
  = (Raise Py.AttributeError,
     mkSt (mkWorld (guild w) (member_roles w) db1)
          [ApiOk (Api.GetCurrentTeam member);
           ApiOk (Api.DeleteTeamUser (Api.id (Api.team team))
                                     (Api.ct_user_id team))]).
Proof.
  intros Hteam Hdel Hrole.
  unfold remove. run_cmd. rewrite Hteam. run_cmd. rewrite Hdel. run_cmd.
  rewrite Hrole. run_cmd. reflexivity.
Qed.

Lemma remove_without_team_role_raises_witness :
  fst (exec (remove Sample.leaders Sample.no_faults 1)
            (mkWorld Sample.empty_guild (member_roles Sample.world)
                     (db Sample.world)))
  = Raise Py.AttributeError.
Proof.
  refine (f_equal fst
            (remove_without_team_role_raises Sample.leaders Sample.no_faults
               (mkWorld Sample.empty_guild (member_roles Sample.world)
                        (db Sample.world))
               1 (Api.mkCurrentTeam 1 Sample.team_a) _ _ _ _)).
  - vm_compute. reflexivity.
  - vm_compute. reflexivity.
  - vm_compute. reflexivity.
Defined.

(** ** [move], after the deletion *)

(** X9. When the insertion into the target team fails after the deletion
    succeeded, nothing is rolled back: the store is the one the deletion
    left, the member has lost the former team's role, and no role is
    granted. With a status other than 400 [move] reports and returns;
    with 400 the report itself fails on a missing key. *)
Theorem move_does_not_roll_back
        (faults : Api.Faults) (w : World) (member : Z) (new_team_name : string)
        (target : Api.Team) (team : Api.CurrentTeam) (db1 : Api.Store)
        (team_role : Role) (status : Z) :
  Api.find_team faults (db w) new_team_name = Api.Ok target ->
  Api.current_team faults (db w) member = Api.Ok team ->
  Api.delete_user faults (db w) (Api.id (Api.team team)) (Api.ct_user_id team)
  = (Api.Ok tt, db1) ->
  get_role (guild w) (Api.discord_role_id (Api.team team)) = Some team_role ->
  fst (Api.post_user faults db1 (Api.id target) member
                     (leader_scan (Api.users (Api.team team)) member))
  = Api.Err status ->
  let r := exec (move faults member new_team_name) w in
  fst r = (if status =? 404 then Return
           else if status =? 400 then Raise Py.KeyError else Return)
  /\ world (snd r)
     = mkWorld (guild w)
               (alter (drop_role team_role) member (member_roles w)) db1
  /\ In (RemoveRoles member team_role) (trace (snd r))
  /\ (forall role, ~ In (AddRoles member role) (trace (snd r)))
  /\ (status <> 400 -> exists report, In (Send report) (trace (snd r))).
Proof.
  intros Hfind Hteam Hdel Hrole Hpost r. apply post_user_err in Hpost.
  unfold r, move. run_cmd. rewrite Hfind. run_cmd. rewrite Hteam. run_cmd.
  rewrite Hdel. run_cmd. rewrite Hrole. run_cmd. rewrite Hpost. run_cmd.
  destruct (status =? 404) eqn:H404; [|destruct (status =? 400) eqn:H400];
    run_cmd.
  - repeat split.
    + simpl. auto 10.
    + intros role Hin. simpl in Hin. intuition discriminate.
    + intros _. eexists. simpl. eauto 10.
  - repeat split.
    + simpl. auto 10.
    + intros role Hin. simpl in Hin. intuition discriminate.
    + intros Hne. apply Z.eqb_eq in H400. contradiction.
  - repeat split.
    + simpl. auto 10.
    + intros role Hin. simpl in Hin. intuition discriminate.
    + intros _. eexists. simpl. eauto 10.
Qed.

Lemma move_does_not_roll_back_witness :
  world (snd (exec (move post_404 1 "Team B") Sample.world))
  = mkWorld (guild Sample.world)
            (alter (drop_role Sample.role_a) 1 (member_roles Sample.world))
            [Api.with_users Sample.team_a [Api.mkUser 2 false]; Sample.team_b].
Proof.
  refine (proj1 (proj2 (move_does_not_roll_back post_404 Sample.world 1
                          "Team B" Sample.team_b
                          (Api.mkCurrentTeam 1 Sample.team_a) _
                          Sample.role_a 404 _ _ _ _ _))).
  - vm_compute. reflexivity.
  - vm_compute. reflexivity.
  - vm_compute. reflexivity.
  - vm_compute. reflexivity.
  - vm_compute. reflexivity.
Defined.

Lemma get_role_some g id role :
  get_role g id = Some role -> In role (guild_roles g) /\ role_id role = id.
Proof.
  unfold get_role. intros H. apply find_some in H as [Hin Hid].
  apply Z.eqb_eq in Hid. auto.
Qed.

Lemma take_role_has role held :
  exists r, In r (take_role role held) /\ role_id r = role_id role.
Proof.
  unfold take_role.
  destruct (existsb _ held) eqn:E.
  - apply existsb_exists in E as (r & Hin & Hid). apply Z.eqb_eq in Hid. eauto.
  - exists role. split; [apply in_or_app; right; left|]; reflexivity.
Qed.

(** X10. When [move] runs to its end, both team roles exist in the guild;
    the member's roles are the former ones without the former team's role
    and with the target team's role, so the member holds a role with the
    target team's role id; the other members' roles are untouched; and the
    effects are, in this order, the two lookups, the deletion, the role
    removal, the insertion, the role grant and the success message naming
    both teams. *)
Theorem move_swaps_team_roles
        (faults : Api.Faults) (w : World) (member : Z) (new_team_name : string)
        (target : Api.Team) (team : Api.CurrentTeam) :
  Api.find_team faults (db w) new_team_name = Api.Ok target ->
  Api.current_team faults (db w) member = Api.Ok team ->
  fst (exec (move faults member new_team_name) w) = Val tt ->
  exists old_role new_role,
    get_role (guild w) (Api.discord_role_id (Api.team team)) = Some old_role
    /\ get_role (guild w) (Api.discord_role_id target) = Some new_role
    /\ member_roles (world (snd (exec (move faults member new_team_name) w)))
       !! member
       = Some (take_role new_role
                 (default [] (drop_role old_role <$> member_roles w !! member)))
    /\ (exists r,
          In r (default []
                  (member_roles
                     (world (snd (exec (move faults member new_team_name) w)))
                   !! member))
          /\ role_id r = Api.discord_role_id target)
    /\ (forall m, m <> member ->
          member_roles (world (snd (exec (move faults member new_team_name) w)))
          !! m = member_roles w !! m)
    /\ trace (snd (exec (move faults member new_team_name) w))
       = [ApiOk (Api.GetTeamsFind new_team_name);
          ApiOk (Api.GetCurrentTeam member);
          ApiOk (Api.DeleteTeamUser (Api.id (Api.team team))
                                    (Api.ct_user_id team));
          RemoveRoles member old_role;
          ApiOk (Api.PostTeamUser (Api.id target) member
                   (leader_scan (Api.users (Api.team team)) member));
          AddRoles member new_role;
          Send ("Success! Participant " +:+ mention member
                +:+ " has been moved " +:+ "from "
                +:+ Api.name (Api.team team) +:+ " to " +:+ Api.name target)].
Proof.
  intros Hfind Hteam.
  unfold move. run_cmd. rewrite Hfind. run_cmd. rewrite Hteam. run_cmd.
  destruct (Api.delete_user faults (db w) _ _) as [[[]|st] db1]; run_cmd;
    [|repeat case_status; discriminate].
  destruct (get_role (guild w) (Api.discord_role_id (Api.team team)))
    as [old_role|]; run_cmd; [|discriminate].
  destruct (Api.post_user faults db1 _ _ _) as [[[]|st] db2]; run_cmd;
    [|repeat case_status; discriminate].
  destruct (get_role (guild w) (Api.discord_role_id target))
    as [new_role|] eqn:Hnew; run_cmd; [|discriminate].
  intros _. exists old_role, new_role.
  split; [reflexivity|]. split; [reflexivity|].
  assert (Hlook : <[member := take_role new_role
                               (default [] (alter (drop_role old_role) member
                                                  (member_roles w) !! member))]>
                    (alter (drop_role old_role) member (member_roles w))
                  !! member
                  = Some (take_role new_role
                            (default [] (drop_role old_role
                                         <$> member_roles w !! member)))).
  { rewrite lookup_insert_eq, lookup_alter_eq. reflexivity. }
  split; [exact Hlook|]. split; [|split; [|reflexivity]].
  - rewrite Hlook. simpl.
    destruct (take_role_has new_role
                (default [] (drop_role old_role <$> member_roles w !! member)))
      as (r & Hin & Hid).
    exists r. split; [exact Hin|].
    rewrite Hid. exact (proj2 (get_role_some _ _ _ Hnew)).
  - intros m Hm.
    rewrite lookup_insert_ne, lookup_alter_ne by congruence. reflexivity.
Qed.

Lemma move_swaps_team_roles_witness :
  exists old_role new_role,
    get_role (guild Sample.world) 10 = Some old_role
    /\ get_role (guild Sample.world) 20 = Some new_role
    /\ member_roles
         (world (snd (exec (move Sample.no_faults 1 "Team B") Sample.world)))
       !! 1
       = Some (take_role new_role
                 (default [] (drop_role old_role
                              <$> member_roles Sample.world !! 1))).
Proof.
  destruct (move_swaps_team_roles Sample.no_faults Sample.world 1 "Team B"
              Sample.team_b (Api.mkCurrentTeam 1 Sample.team_a)
              eq_refl eq_refl eq_refl)
    as (old_role & new_role & H1 & H2 & H3 & _).
  exists old_role, new_role. exact (conj H1 (conj H2 H3)).
Defined.

(** X11. The scan of [move] carries the member as a leader exactly when
    some entry of the former team's list bears the member's id and the
    leader flag: a member absent from the list, or present only with the
    flag off, is carried as a non-leader. *)
Theorem leader_scan_iff (members : list Api.User) (member : Z) :
  leader_scan members member = true
  <-> In (Api.mkUser member true) members.
Proof.
  unfold leader_scan. rewrite leader_scan_from. simpl.
  rewrite existsb_exists. split.
  - intros ([uid flag] & Hin & Hb). simpl in Hb.
    apply andb_prop in Hb as [Hid Hflag]. apply Z.eqb_eq in Hid.
    subst. exact Hin.
  - intros Hin. exists (Api.mkUser member true). split; [exact Hin|].
    simpl. rewrite Z.eqb_refl. reflexivity.
Qed.

(** ** [jam_roles] and [team_channel] *)

Lemma In_omap {X Y} (f : X -> option Y) (l : list X) (y : Y) :
  In y (omap f l) <-> exists x, In x l /\ f x = Some y.
Proof.
  induction l as [|a l IH]; simpl.
  - split; [intros []|intros (x & [] & _)].
  - destruct (f a) as [b|] eqn:Hfa; simpl; rewrite IH; split.
    + intros [<-|(x & Hin & Hx)]; eauto.
    + intros (x & [<-|Hin] & Hx); [left; congruence|eauto].
    + intros (x & Hin & Hx). eauto.
    + intros (x & [<-|Hin] & Hx); [congruence|eauto].
Qed.

Lemma length_omap_le {X Y} (f : X -> option Y) (l : list X) :
  (length (omap f l) <= length l)%nat.
Proof.
  induction l as [|a l IH]; [reflexivity|].
  change (omap f (a :: l))
    with (match f a with Some y => y :: omap f l | None => omap f l end).
  destruct (f a); simpl; lia.
Qed.

Lemma get_role_finds g role :
  In role (guild_roles g) ->
  exists role', get_role g (role_id role) = Some role'.
Proof.
  intros Hin. unfold get_role.
  destruct (find _ (guild_roles g)) as [r|] eqn:Hfind; [eauto|exfalso].
  pose proof (find_none _ _ Hfind role Hin) as H. simpl in H.
  rewrite Z.eqb_refl in H. discriminate.
Qed.

(** X12. [jam_roles] only reads: the world is left as it was. When the
    request fails it answers [None], not the empty list. When the request
    succeeds it answers the guild's roles of the teams of the current jam:
    every role of the answer is a role of the guild whose id is the role id
    of such a team, every such team whose role id names a role of the guild
    has it in the answer, and a team whose role is gone is skipped. *)
Theorem jam_roles_are_the_guild_roles_of_the_jam
        (faults : Api.Faults) (w : World) :
  world (snd (exec (jam_roles faults) w)) = w
  /\ (forall status,
        Api.get_teams faults (db w) = Api.Err status ->
        fst (exec (jam_roles faults) w) = Val None)
  /\ (forall raw,
        Api.get_teams faults (db w) = Api.Ok raw ->
        exists roles,
          fst (exec (jam_roles faults) w) = Val (Some roles)
          /\ (length roles <= length raw)%nat
          /\ (forall role,
                In role roles ->
                In role (guild_roles (guild w))
                /\ exists t, In t raw
                             /\ Api.discord_role_id t = role_id role)
          /\ (forall t role,
                In t raw -> In role (guild_roles (guild w)) ->
                role_id role = Api.discord_role_id t ->
                exists role', In role' roles
                              /\ role_id role' = Api.discord_role_id t)).
Proof.
  unfold exec. rewrite jam_roles_run. cbn [world trace].
  split; [destruct (Api.get_teams faults (db w)); destruct w; reflexivity|].
  split.
  - intros status ->. reflexivity.
  - intros raw ->. eexists. split; [reflexivity|]. split; [|split].
    + apply length_omap_le.
    + intros role (t & Hin & Hget)%In_omap.
      apply get_role_some in Hget as [Hg Hid]. eauto.
    + intros t role Hin Hg Hid.
      destruct (get_role_finds _ _ Hg) as [role' Hget]. rewrite Hid in Hget.
      exists role'. split.
      * apply In_omap. eauto.
      * exact (proj2 (get_role_some _ _ _ Hget)).
Qed.

Lemma jam_roles_are_the_guild_roles_of_the_jam_witness :
  exists roles,
    fst (exec (jam_roles Sample.no_faults) Sample.world) = Val (Some roles)
    /\ (length roles <= 2)%nat.
Proof.
  destruct (proj2 (proj2 (jam_roles_are_the_guild_roles_of_the_jam
                            Sample.no_faults Sample.world))
                  [Sample.team_a; Sample.team_b] eq_refl)
    as (roles & H1 & H2 & _).
  exists roles. exact (conj H1 H2).
Defined.

Lemma scan_channels_some title criterion chs channel :
  scan_channels title criterion chs = Some channel ->
  In channel chs /\ is_text channel = true /\ meets title criterion channel = true.
Proof.
  induction chs as [|c chs IH]; simpl; [discriminate|].
  destruct (is_text c && meets title criterion c) eqn:E.
  - intros [= <-]. apply andb_prop in E. tauto.
  - intros H. destruct (IH H) as (? & ? & ?). auto.
Qed.

Lemma scan_channels_none title criterion chs :
  scan_channels title criterion chs = None ->
  forall channel, In channel chs ->
                  is_text channel && meets title criterion channel = false.
Proof.
  induction chs as [|c chs IH]; simpl; [intros _ ? []|].
  destruct (is_text c && meets title criterion c) eqn:E; [discriminate|].
  intros H channel [<-|Hin]; auto.
Qed.

Lemma jam_categories_In name g category :
  In category (jam_categories name g)
  <-> In category (guild_categories g) /\ category_name category = name.
Proof.
  unfold jam_categories. rewrite List.filter_In, String.eqb_eq. reflexivity.
Qed.

Lemma team_channel_found (title : string -> string)
        (CATEGORY_NAME : string) (g : Guild)
        (criterion : Criterion) (channel : Channel) :
  team_channel title CATEGORY_NAME g criterion = Some channel ->
  (exists category,
      In category (guild_categories g)
      /\ category_name category = CATEGORY_NAME
      /\ In channel (channels category))
  /\ is_text channel = true
  /\ match criterion with
     | ByName s => channel_name channel = s \/ team_name title channel = s
     | ByMember m => In m (overwrites channel)
     end.
Proof.
  unfold team_channel.
  assert (H : forall cats,
             scan_categories title criterion cats = Some channel ->
             (exists category, In category cats
                               /\ In channel (channels category))
             /\ is_text channel = true /\ meets title criterion channel = true).
  { induction cats as [|c cats IH]; simpl; [discriminate|].
    destruct (scan_channels title criterion (channels c)) as [ch|] eqn:E.
    - intros [= ->]. apply scan_channels_some in E as (Hc & Ht & Hm).
      split; [exists c; split; [left; reflexivity|exact Hc]|auto].
    - intros Hrest. destruct (IH Hrest) as ((cat & Hc & Hch) & Ht & Hm).
      split; [exists cat; split; [right; exact Hc|exact Hch]|auto]. }
  intros Hscan. destruct (H _ Hscan) as ((cat & Hcat & Hin) & Htext & Hmeets).
  apply jam_categories_In in Hcat as [Hg Hname].
  split; [eauto|]. split; [exact Htext|].
  destruct criterion as [s|m]; simpl in Hmeets.
  - apply orb_prop in Hmeets as [H1|H1]; apply String.eqb_eq in H1; auto.
  - apply existsb_exists in Hmeets as (id & Hin' & Hid).
    apply Z.eqb_eq in Hid. subst. exact Hin'.
Qed.

(** X13. The channel that [team_channel] gives is a text channel of a jam
    category of the guild, and it meets the criterion: its name or its
    display name is the given name, or the given member has a permission
    overwrite on it. *)
Theorem team_channel_sound (title : string -> string)
        (CATEGORY_NAME : string) (g : Guild)
        (criterion : Criterion) (channel : Channel) :
  team_channel title CATEGORY_NAME g criterion = Some channel ->
  (exists category,
      In category (guild_categories g)
      /\ category_name category = CATEGORY_NAME
      /\ In channel (channels category))
  /\ is_text channel = true
  /\ match criterion with
     | ByName s => channel_name channel = s \/ team_name title channel = s
     | ByMember m => In m (overwrites channel)
     end.
Proof. apply team_channel_found. Qed.

Lemma team_channel_sound_witness :
  is_text Sample.team_a_channel = true.
Proof.
  refine (proj1 (proj2 (team_channel_sound Py.ascii_title Sample.category Sample.guild
                          (ByName "Team A") Sample.team_a_channel _))).
  vm_compute. reflexivity.
Defined.

(** X14. [team_channel] finds a channel whenever one can be found: it
    gives [None] only if no text channel of any jam category meets the
    criterion. So a text channel of a jam category is found, or another
    one meeting the same criterion before it, by its name, by its display
    name, and by any member with an overwrite on it; a channel that is not
    a text channel, or lies outside the jam categories, is never given. *)
Theorem team_channel_complete (title : string -> string)
        (CATEGORY_NAME : string) (g : Guild)
        (criterion : Criterion) (category : Category) (channel : Channel) :
  In category (guild_categories g) ->
  category_name category = CATEGORY_NAME ->
  In channel (channels category) ->
  is_text channel = true ->
  (forall found, team_channel title CATEGORY_NAME g criterion = Some found ->
                 meets title criterion found = true)
  /\ (meets title criterion channel = true ->
      exists found, team_channel title CATEGORY_NAME g criterion = Some found)
  /\ (exists found,
        team_channel title CATEGORY_NAME g (ByName (channel_name channel))
        = Some found)
  /\ (exists found,
        team_channel title CATEGORY_NAME g (ByName (team_name title channel)) = Some found)
  /\ (forall m, In m (overwrites channel) ->
                exists found,
                  team_channel title CATEGORY_NAME g (ByMember m) = Some found).
Proof.
  intros Hg Hname Hin Htext.
  assert (Hcat : In category (jam_categories CATEGORY_NAME g))
    by (apply jam_categories_In; auto).
  assert (Hfind : forall crit,
             meets title crit channel = true ->
             exists found, team_channel title CATEGORY_NAME g crit = Some found).
  { intros crit Hmeets. unfold team_channel.
    induction (jam_categories CATEGORY_NAME g) as [|c cats IH];
      [destruct Hcat|].
    simpl. destruct (scan_channels title crit (channels c)) as [ch|] eqn:E; [eauto|].
    destruct Hcat as [->|Hcat]; [|exact (IH Hcat)].
    pose proof (scan_channels_none _ _ _ E channel Hin) as Hno.
    rewrite Htext, Hmeets in Hno. discriminate. }
  split; [|split; [|split; [|split]]].
  - intros found Hfound.
    destruct (team_channel_found _ _ _ _ _ Hfound) as (_ & _ & Hm).
    destruct criterion as [s|m]; simpl.
    + destruct Hm as [<-|<-]; rewrite String.eqb_refl; auto using orb_true_r.
    + apply existsb_exists. exists m. rewrite Z.eqb_refl. auto.
  - apply Hfind.
  - apply Hfind. simpl. rewrite String.eqb_refl. reflexivity.
  - apply Hfind. simpl. rewrite String.eqb_refl. apply orb_true_r.
  - intros m Hm. apply Hfind. simpl. apply existsb_exists.
    exists m. rewrite Z.eqb_refl. auto.
Qed.

Lemma team_channel_complete_witness :
  exists found,
    team_channel Py.ascii_title Sample.category Sample.guild
                 (ByName (team_name Py.ascii_title Sample.team_a_channel)) = Some found.
Proof.
  refine (proj1 (proj2 (proj2 (proj2
            (team_channel_complete Py.ascii_title
               Sample.category Sample.guild
               (ByMember 1) (mkCategory 1000 Sample.category
                                        [Sample.team_a_channel])
               Sample.team_a_channel _ _ _ _))))).
  - simpl. left. reflexivity.
  - reflexivity.
  - simpl. left. reflexivity.
  - reflexivity.
Defined.

(** ** [end], in its other cases *)

(** [end] once the precondition is passed with a list of roles. *)
Lemma end_run CATEGORY_NAME faults paste author inputs w raw :
  Api.get_teams faults (db w) = Api.Ok raw ->
  let roles :=
    omap (fun role => get_role (guild w) (Api.discord_role_id role)) raw in
  let confirm_view :=
    Views.init
      (Views.JamEndConfirmation
         (map (fun category => (category, channels category))
              (jam_categories CATEGORY_NAME (guild w)))
         roles) author in
  jam_categories CATEGORY_NAME (guild w) <> [] \/ roles <> [] ->
  exists details url,
    exec (end_ CATEGORY_NAME faults paste author inputs) w
    = (if Views.stopped (fst (Views.run confirm_view inputs))
       then Val tt else Waiting,
       mkSt w ([ApiOk Api.GetTeams; Paste details;
                SendView "Are you sure?" url confirm_view]
                 ++ map Ui (snd (Views.run confirm_view inputs))
                 ++ (if Views.stopped (fst (Views.run confirm_view inputs))
                     then [Send officially_ended] else []))).
Proof.
  intros Hget roles confirm_view Hpass.
  assert (Hguard :
            match jam_categories CATEGORY_NAME (guild w) with
            | [] => true | _ => false end
            && match roles with [] => true | _ => false end = false).
  { destruct (jam_categories CATEGORY_NAME (guild w)); [|reflexivity].
    destruct roles; [|reflexivity].
    destruct Hpass as [H|H]; congruence. }
  unfold exec, end_. unfold bind at 1. unfold get_world at 1. cbn [world].
  unfold bind at 1. rewrite jam_roles_run. cbn [world trace db guild].
  rewrite Hget. fold roles. rewrite Hguard. fold confirm_view.
  run_end. fold roles. fold confirm_view.
  destruct (Views.run confirm_view inputs) as [v' effects].
  cbn [fst snd]. destruct (Views.stopped v'); run_end.
  - eexists _, _. destruct w; reflexivity.
  - eexists _, _. rewrite app_nil_r. destruct w; reflexivity.
Qed.

(** [end] when there is nothing to delete. *)
Lemma end_refused_run CATEGORY_NAME faults paste author inputs w :
  jam_categories CATEGORY_NAME (guild w) = [] ->
  match Api.get_teams faults (db w) with
  | Api.Ok raw =>
      omap (fun role => get_role (guild w) (Api.discord_role_id role)) raw = []
  | Api.Err _ => True
  end ->
  exec (end_ CATEGORY_NAME faults paste author inputs) w
  = (Return,
     mkSt w (match Api.get_teams faults (db w) with
             | Api.Ok _ => [ApiOk Api.GetTeams]
             | Api.Err status => [ApiErr Api.GetTeams status; Log ERROR]
             end ++ [Send nothing_to_delete])).
Proof.
  intros Hcat Hzero.
  unfold exec, end_. unfold bind at 1. unfold get_world at 1. cbn [world].
  rewrite Hcat. unfold bind at 1. rewrite jam_roles_run.
  cbn [world trace db guild].
  destruct (Api.get_teams faults (db w)) as [raw|st].
  - rewrite Hzero. run_end. destruct w; reflexivity.
  - run_end. destruct w; reflexivity.
Qed.

Lemma run_acts_stop inputs : forall v,
  List.filter acts (snd (Views.run v inputs)) <> [] ->
  Views.stopped (fst (Views.run v inputs)) = true.
Proof.
  induction inputs as [|i rest IH]; intros v; [simpl; congruence|].
  destruct (Views.stopped v) eqn:Hs.
  { rewrite run_stopped by exact Hs. simpl. congruence. }
  rewrite run_cons. cbn [fst snd]. rewrite List.filter_app.
  destruct (dispatch_pending v i Hs) as [[_ Hd]|(Hs' & _)].
  - rewrite Hd. cbn [fst snd]. simpl. apply IH.
  - intros _. rewrite (run_stopped _ rest Hs'). exact Hs'.
Qed.

Lemma end_type_error_run
        (CATEGORY_NAME : string) (faults : Api.Faults)
        (paste : string -> option string) (author : Z)
        (inputs : list Views.Input) (w : World) (status : Z) :
  jam_categories CATEGORY_NAME (guild w) <> [] ->
  Api.get_teams faults (db w) = Api.Err status ->
  exec (end_ CATEGORY_NAME faults paste author inputs) w
  = (Raise Py.TypeError, mkSt w [ApiErr Api.GetTeams status; Log ERROR]).
Proof.
  intros Hcat Hget.
  unfold exec, end_. unfold bind at 1. unfold get_world at 1. cbn [world].
  unfold bind at 1. rewrite jam_roles_run. cbn [world trace db guild].
  rewrite Hget.
  destruct (jam_categories CATEGORY_NAME (guild w)); [congruence|].
  run_end. destruct w; reflexivity.
Qed.

(** X15. When the guild has jam categories and the lookup of the jam's
    roles fails, [end] passes its precondition and then fails on the
    missing list of roles: it ends with [TypeError], and nothing is
    pasted, shown or announced. *)
Theorem end_raises_without_roles
        (CATEGORY_NAME : string) (faults : Api.Faults)
        (paste : string -> option string) (author : Z)
        (inputs : list Views.Input) (w : World) (status : Z) :
  jam_categories CATEGORY_NAME (guild w) <> [] ->
  Api.get_teams faults (db w) = Api.Err status ->
  exec (end_ CATEGORY_NAME faults paste author inputs) w
  = (Raise Py.TypeError, mkSt w [ApiErr Api.GetTeams status; Log ERROR]).
Proof. apply end_type_error_run. Qed.

Lemma end_raises_without_roles_witness :
  exec (end_ Sample.category (fun _ => Some 500) Sample.paste 1
             [Views.Click 1 Views.Confirm]) Sample.world
  = (Raise Py.TypeError,
     mkSt Sample.world [ApiErr Api.GetTeams 500; Log ERROR]).
Proof.
  refine (end_raises_without_roles Sample.category (fun _ => Some 500)
            Sample.paste 1 [Views.Click 1 Views.Confirm] Sample.world 500 _ _).
  - vm_compute. discriminate.
  - reflexivity.
Defined.

(** X16. While the view that [end] shows has not come to a stop, [end]
    stays at its wait: the announcement that the jam has ended is not
    sent, and the callback has not been invoked. *)
Theorem end_waits_for_the_view
        (CATEGORY_NAME : string) (faults : Api.Faults)
        (paste : string -> option string) (author : Z)
        (inputs : list Views.Input) (w : World) (roles : list Role) :
  fst (exec (jam_roles faults) w) = Val (Some roles) ->
  jam_categories CATEGORY_NAME (guild w) <> [] \/ roles <> [] ->
  Views.stopped
    (fst (Views.run
            (Views.init
               (Views.JamEndConfirmation
                  (map (fun category => (category, channels category))
                       (jam_categories CATEGORY_NAME (guild w)))
                  roles) author) inputs)) = false ->
  fst (exec (end_ CATEGORY_NAME faults paste author inputs) w) = Waiting
  /\ ~ In (Send officially_ended)
          (trace (snd (exec (end_ CATEGORY_NAME faults paste author inputs) w)))
  /\ forall category_channels rs,
       ~ In (Ui (Views.EndCallback category_channels rs))
            (trace (snd (exec (end_ CATEGORY_NAME faults paste author inputs)
                              w))).
Proof.
  intros Hroles Hpass Hstop.
  unfold exec in Hroles. rewrite jam_roles_run in Hroles.
  cbn [world trace db guild] in Hroles.
  destruct (Api.get_teams faults (db w)) as [raw|st] eqn:Hget;
    cbn [fst] in Hroles; [|discriminate].
  injection Hroles as Hroles.
  destruct (end_run CATEGORY_NAME faults paste author inputs w raw Hget)
    as (details & url & Hrun); [rewrite Hroles; exact Hpass|].
  rewrite Hroles in Hrun. rewrite Hrun, Hstop. cbn [fst snd trace].
  split; [reflexivity|].
  assert (Hno : List.filter acts
                  (snd (Views.run
                          (Views.init
                             (Views.JamEndConfirmation
                                (map (fun category =>
                                        (category, channels category))
                                     (jam_categories CATEGORY_NAME (guild w)))
                                roles) author) inputs)) = []).
  { destruct (List.filter acts _) eqn:E; [reflexivity|exfalso].
    rewrite run_acts_stop in Hstop; [discriminate|].
    rewrite E. discriminate. }
  split.
  - rewrite app_nil_r. intros [H|[H|[H|H]]]; try discriminate.
    apply in_map_iff in H as (e & He & _). discriminate.
  - intros cc rs. rewrite app_nil_r. intros [H|[H|[H|H]]]; try discriminate.
    apply in_map_iff in H as (e & [= ->] & Hin).
    assert (Hf : In (Views.EndCallback cc rs)
                    (List.filter acts
                       (snd (Views.run
                               (Views.init
                                  (Views.JamEndConfirmation
                                     (map (fun category =>
                                             (category, channels category))
                                          (jam_categories CATEGORY_NAME
                                                          (guild w)))
                                     roles) author) inputs))))
      by (apply List.filter_In; auto).
    rewrite Hno in Hf. destruct Hf.
Qed.

Lemma end_waits_for_the_view_witness :
  fst (exec (end_ Sample.category Sample.no_faults Sample.paste 1
                  [Views.Click 2 Views.Confirm; Views.Click 3 Views.Cancel])
            Sample.world) = Waiting.
Proof.
  refine (proj1 (end_waits_for_the_view Sample.category Sample.no_faults
                   Sample.paste 1
                   [Views.Click 2 Views.Confirm; Views.Click 3 Views.Cancel]
                   Sample.world [Sample.role_a; Sample.role_b] _ _ _)).
  - vm_compute. reflexivity.
  - left. vm_compute. discriminate.
  - vm_compute. reflexivity.
Defined.

(** X17. [end] itself changes nothing in the world, whatever the inputs.
    A callback in its effects carries the snapshot that was taken for the
    preview, the jam categories each with its channels, and the roles that
    [jam_roles] answered, the ones held by the view that was shown. *)
Theorem end_hands_over_its_snapshot
        (CATEGORY_NAME : string) (faults : Api.Faults)
        (paste : string -> option string) (author : Z)
        (inputs : list Views.Input) (w : World) :
  world (snd (exec (end_ CATEGORY_NAME faults paste author inputs) w)) = w
  /\ forall category_channels roles,
       In (Ui (Views.EndCallback category_channels roles))
          (trace (snd (exec (end_ CATEGORY_NAME faults paste author inputs) w)))
       ->
       category_channels
       = map (fun category => (category, channels category))
             (jam_categories CATEGORY_NAME (guild w))
       /\ fst (exec (jam_roles faults) w) = Val (Some roles)
       /\ exists url,
            In (SendView "Are you sure?" url
                  (Views.init
                     (Views.JamEndConfirmation category_channels roles) author))
               (trace (snd (exec (end_ CATEGORY_NAME faults paste author
                                       inputs) w))).
Proof.
  destruct (Api.get_teams faults (db w)) as [raw|st] eqn:Hget.
  - set (roles0 := omap (fun role => get_role (guild w)
                                              (Api.discord_role_id role)) raw).
    assert (Hjam : fst (exec (jam_roles faults) w) = Val (Some roles0)).
    { unfold exec. rewrite jam_roles_run. cbn [world trace]. rewrite Hget.
      reflexivity. }
    destruct (jam_categories CATEGORY_NAME (guild w)) as [|c cats] eqn:Hcat.
    + destruct roles0 as [|r0 rs0] eqn:Hr0.
      * rewrite (end_refused_run CATEGORY_NAME faults paste author inputs w
                   Hcat); [|rewrite Hget; exact Hr0].
        rewrite Hget. cbn [snd world trace app]. split; [reflexivity|].
        intros cc rs [H|[H|[]]]; discriminate.
      * destruct (end_run CATEGORY_NAME faults paste author inputs w raw Hget)
          as (details & url & Hrun);
          [right; fold roles0; rewrite Hr0; discriminate|].
        fold roles0 in Hrun. rewrite Hr0, Hcat in Hrun. rewrite Hrun.
        cbn [snd world trace app]. split; [reflexivity|].
        intros cc rs [H|[H|[H|H]]]; try discriminate.
        apply in_app_or in H as [H|H].
        -- apply in_map_iff in H as (e & [= ->] & Hin).
           apply view_payload in Hin. simpl in Hin.
           injection Hin as Hcc Hrs. subst cc rs. split; [reflexivity|].
           split; [exact Hjam|]. exists url. simpl. auto.
        -- destruct (Views.stopped _); [destruct H as [H|[]]|destruct H];
             discriminate.
    + destruct (end_run CATEGORY_NAME faults paste author inputs w raw Hget)
        as (details & url & Hrun); [left; rewrite Hcat; discriminate|].
      fold roles0 in Hrun. rewrite Hcat in Hrun. rewrite Hrun.
      cbn [snd world trace app]. split; [reflexivity|].
      intros cc rs [H|[H|[H|H]]]; try discriminate.
      apply in_app_or in H as [H|H].
      * apply in_map_iff in H as (e & [= ->] & Hin).
        apply view_payload in Hin. simpl in Hin.
        injection Hin as Hcc Hrs. subst cc rs. split; [reflexivity|].
        split; [exact Hjam|]. exists url. simpl. auto.
      * destruct (Views.stopped _); [destruct H as [H|[]]|destruct H];
          discriminate.
  - destruct (jam_categories CATEGORY_NAME (guild w)) as [|c cats] eqn:Hcat.
    + rewrite (end_refused_run CATEGORY_NAME faults paste author inputs w
                 Hcat); [|rewrite Hget; exact I].
      rewrite Hget. cbn [snd world trace app]. split; [reflexivity|].
      intros cc rs [H|[H|[H|[]]]]; discriminate.
    + rewrite (end_type_error_run CATEGORY_NAME faults paste author
                 inputs w st); [|rewrite Hcat; discriminate|exact Hget].
      cbn [snd world trace]. split; [reflexivity|].
      intros cc rs [H|[H|[]]]; discriminate.
Qed.

Lemma end_hands_over_its_snapshot_witness :
  fst (exec (jam_roles Sample.no_faults) Sample.world)
  = Val (Some [Sample.role_a; Sample.role_b]).
Proof.
  refine (proj1 (proj2 (proj2 (end_hands_over_its_snapshot Sample.category
                                 Sample.no_faults Sample.paste 1
                                 [Views.Click 1 Views.Confirm] Sample.world)
                              [(mkCategory 1000 Sample.category
                                           [Sample.team_a_channel],
                                [Sample.team_a_channel])]
                              [Sample.role_a; Sample.role_b] _))).
  vm_compute. do 4 right. left. reflexivity.
Defined.

(** ** [create], on any roster *)

Section CreateRuns.

Variable int : string -> option Z.

Lemma read_rows_bad rows : forall teams s,
  existsb (bad_id int) rows = true ->
  exists e k,
    read_rows int rows teams s
    = (Raise e, mkSt (world s) (trace s ++ repeat (Log TRACE) k))
    /\ (e = Py.KeyError \/ e = Py.ValueError)
    /\ (forallb has_columns rows = true -> e = Py.ValueError)
    /\ (existsb (no_integer int) rows = false -> e = Py.KeyError).
Proof.
  induction rows as [|row rest IH]; intros teams s; [discriminate|].
  cbn [existsb forallb read_rows].
  unfold bad_id at 1, has_columns at 1, no_integer at 1.
  unfold bind at 1, item at 1.
  destruct (row !! "Team Member Discord ID") as [id_field|].
  2:{ intros _. exists Py.KeyError, 0%nat. unfold raise. simpl.
      rewrite app_nil_r. destruct s. repeat split; auto; discriminate. }
  unfold ret at 1. unfold bind at 1, py_int.
  destruct (int id_field) as [id|].
  2:{ intros _. exists Py.ValueError, 0%nat. unfold raise. simpl.
      rewrite app_nil_r. destruct s. repeat split; auto; discriminate. }
  unfold ret at 1. unfold bind at 1, get_world at 1. simpl orb. intros Hbad.
  destruct (get_or_fetch_member (guild (world s)) id) as [m|].
  - unfold bind at 1, item at 1.
    destruct (row !! "Team Name") as [team|].
    2:{ exists Py.KeyError, 0%nat. unfold raise. simpl.
        rewrite app_nil_r. destruct s. repeat split; auto; discriminate. }
    unfold ret at 1. unfold bind at 1, item at 1.
    destruct (row !! "Team Leader") as [leader|].
    2:{ exists Py.KeyError, 0%nat. unfold raise. simpl.
        rewrite app_nil_r. destruct s. repeat split; auto; discriminate. }
    unfold ret at 1. apply IH. exact Hbad.
  - unfold bind at 1, log, emit.
    destruct (IH teams (mkSt (world s) (trace s ++ [Log TRACE])) Hbad)
      as (e & k & Hrun & He & Hcols & Hint).
    exists e, (S k). rewrite Hrun. cbn [world trace].
    rewrite <- app_assoc. split; [reflexivity|]. split; [exact He|].
    split; [|exact Hint].
    intros [_ Hrest]%andb_prop. exact (Hcols Hrest).
Qed.

Lemma read_rows_well_formed rows : forall teams s,
  forallb (well_formed int) rows = true ->
  exists teams',
    read_rows int rows teams s
    = (Val teams',
       mkSt (world s)
            (trace s
             ++ repeat (Log TRACE)
                       (length (unresolved int (guild (world s)) rows)))).
Proof.
  induction rows as [|row rest IH]; intros teams s.
  - intros _. exists teams. simpl. unfold ret. rewrite app_nil_r.
    destruct s; reflexivity.
  - cbn [forallb]. intros [Hrow Hrest]%andb_prop.
    unfold well_formed, bad_id in Hrow. unfold unresolved, resolve.
    cbn [read_rows List.filter]. unfold bind at 1, item at 1.
    destruct (row !! "Team Member Discord ID") as [id_field|];
      [|discriminate].
    unfold ret at 1. unfold bind at 1, py_int.
    destruct (int id_field) as [id|]; [|discriminate].
    unfold ret at 1. unfold bind at 1, get_world at 1.
    destruct (row !! "Team Name") as [team|] eqn:Hteam; [|discriminate].
    destruct (row !! "Team Leader") as [leader|] eqn:Hleader; [|discriminate].
    destruct (get_or_fetch_member (guild (world s)) id) as [m|].
    + unfold bind at 1, item at 1. rewrite Hteam. unfold ret at 1.
      unfold bind at 1, item at 1. rewrite Hleader. unfold ret at 1.
      apply (IH _ s Hrest).
    + unfold bind at 1, log, emit.
      destruct (IH teams (mkSt (world s) (trace s ++ [Log TRACE])) Hrest)
        as (teams' & Hrun).
      exists teams'. rewrite Hrun. cbn [world trace length repeat].
      rewrite <- app_assoc. reflexivity.
Qed.

End CreateRuns.

(** X18. One row whose member id cannot be read, for want of the column
    or of an integer in it, makes [create] fail as a whole, wherever the
    row stands in the roster: the command ends with [KeyError] or with
    [ValueError], the world is untouched, and no confirmation is shown.
    The exception is [ValueError] when every row has its three columns,
    and [KeyError] when every id that is present is an integer. *)
Theorem create_fails_on_an_unreadable_id
        (int : string -> option Z) (author : Z) (w : World)
        (rows : list (gmap string string)) :
  existsb (bad_id int) rows = true ->
  (fst (exec (create int author rows) w) = Raise Py.KeyError
   \/ fst (exec (create int author rows) w) = Raise Py.ValueError)
  /\ (forallb has_columns rows = true ->
      fst (exec (create int author rows) w) = Raise Py.ValueError)
  /\ (existsb (no_integer int) rows = false ->
      fst (exec (create int author rows) w) = Raise Py.KeyError)
  /\ world (snd (exec (create int author rows) w)) = w
  /\ forallb (fun e => negb (is_send_view e))
             (trace (snd (exec (create int author rows) w))) = true.
Proof.
  intros Hbad.
  destruct (read_rows_bad int rows ∅ (mkSt w []) Hbad)
    as (e & k & Hrun & He & Hcols & Hint).
  unfold exec, create. unfold bind. rewrite Hrun. cbn [fst snd world trace app].
  split; [destruct He as [->| ->]; auto|].
  split; [intros H; rewrite (Hcols H); reflexivity|].
  split; [intros H; rewrite (Hint H); reflexivity|].
  split; [reflexivity|].
  clear Hrun. induction k as [|k IH]; [reflexivity|exact IH].
Qed.

Lemma create_fails_on_an_unreadable_id_witness :
  fst (exec (create Sample.int 1
               [Sample.row "A" "1" "Y"; Sample.row "A" "two" "N"])
            Sample.world) = Raise Py.ValueError.
Proof.
  refine (proj1 (proj2 (create_fails_on_an_unreadable_id Sample.int 1
                          Sample.world
                          [Sample.row "A" "1" "Y"; Sample.row "A" "two" "N"]
                          _)) _).
  - vm_compute. reflexivity.
  - vm_compute. reflexivity.
Defined.

(** X19. On a roster whose rows all have the three columns and an integer
    id, [create] runs to its end: it logs once for each row whose member
    does not resolve, leaves the world untouched, and shows one
    confirmation, which holds the teams it read and tells their number. *)
Theorem create_shows_one_confirmation
        (int : string -> option Z) (author : Z) (w : World)
        (rows : list (gmap string string)) :
  forallb (well_formed int) rows = true ->
  exists teams,
    read_rows int rows ∅ (mkSt w [])
    = (Val teams,
       mkSt w (repeat (Log TRACE) (length (unresolved int (guild w) rows))))
    /\ exec (create int author rows) w
       = (Val tt,
          mkSt w (repeat (Log TRACE) (length (unresolved int (guild w) rows))
                  ++ [SendView "Warning!" (warning_description teams)
                        (Views.init (Views.JamCreationConfirmation teams)
                                    author)])).
Proof.
  intros Hwf.
  destruct (read_rows_well_formed int rows ∅ (mkSt w []) Hwf) as (teams & Hrun).
  cbn [world trace app] in Hrun.
  exists teams. split; [exact Hrun|].
  unfold exec, create. unfold bind. rewrite Hrun. reflexivity.
Qed.

Lemma create_shows_one_confirmation_witness :
  exists teams,
    read_rows Sample.int Sample.roster ∅ (mkSt Sample.world [])
    = (Val teams,
       mkSt Sample.world
            (repeat (Log TRACE)
               (length (unresolved Sample.int (guild Sample.world)
                                   Sample.roster)))).
Proof.
  destruct (create_shows_one_confirmation Sample.int 1 Sample.world
              Sample.roster eq_refl) as (teams & H & _).
  exists teams. exact H.
Defined.

(** X20. On any roster that [create] reads to its end, the list under a
    team name holds one entry for each row of that name whose member
    resolves, in the roster's order and without merging repeated members:
    the members of the entries are the members the rows resolve to, and
    their leader flags are the rows' flags. A name without such a row is
    no key. *)
Theorem roster_is_grouped_in_order
        (int : string -> option Z) (w : World)
        (rows : list (gmap string string))
        (teams : gmap string (list Entry)) (s' : St) (name : string) :
  read_rows int rows ∅ (mkSt w []) = (Val teams, s') ->
  match teams !! name with
  | Some es =>
      es <> []
      /\ map (fun e => Some (member e)) es
         = map (resolve int (guild w)) (team_rows int (guild w) rows name)
      /\ map is_leader es = map flagged (team_rows int (guild w) rows name)
  | None => team_rows int (guild w) rows name = []
  end.
Proof.
  intros Hrun. pose proof (read_rows_key int _ _ _ _ name Hrun) as Hkey.
  destruct (teams !! name) as [es|]; [|exact Hkey].
  destruct Hkey as [Hne HF]. split; [exact Hne|].
  clear Hne. induction HF as [|row e rs es [Hres Hflag] _ [IH1 IH2]]; simpl.
  - auto.
  - rewrite Hres, Hflag, IH1, IH2. auto.
Qed.

Lemma roster_is_grouped_in_order_witness :
  match sample_teams !! "A" with
  | Some es =>
      es <> []
      /\ map (fun e => Some (member e)) es
         = map (resolve Sample.int (guild Sample.world))
               (team_rows Sample.int (guild Sample.world) Sample.roster "A")
      /\ map is_leader es
         = map flagged
               (team_rows Sample.int (guild Sample.world) Sample.roster "A")
  | None => team_rows Sample.int (guild Sample.world) Sample.roster "A" = []
  end.
Proof.
  refine (roster_is_grouped_in_order Sample.int Sample.world Sample.roster
            sample_teams (mkSt Sample.world [Log TRACE]) "A" _).
  vm_compute. reflexivity.
Defined.

(** ** [show_team] *)

(** X21. [show_team] answers the user exactly when the lookup of the
    user's team succeeds: it then sends one message, visible to that user
    only, that names the team, its channel and one mention for each member
    of the team, in the list's order. When the lookup fails, with 404 as
    with any other status, nothing is sent and the failure is only
    logged. *)
Theorem show_team_answers_only_on_success
        (faults : Api.Faults) (w : World) (user : Z) :
  (snd (show_team faults w user) <> []
   <-> exists team, Api.current_team faults (db w) user = Api.Ok team)
  /\ (length (snd (show_team faults w user)) <= 1)%nat
  /\ (forall embed ephemeral,
        In (SendEmbed embed ephemeral) (snd (show_team faults w user)) ->
        ephemeral = true
        /\ exists team,
             Api.current_team faults (db w) user = Api.Ok team
             /\ embed_title embed
                = "You have been sorted into " +:+ Api.name (Api.team team)
             /\ embed_fields embed
                = [("Your team's channel:",
                    "<#" +:+ pretty (Api.discord_channel_id (Api.team team))
                    +:+ ">");
                   ("Your team's members:",
                    join nl (map (fun u => mention (Api.user_id u))
                                 (Api.users (Api.team team))))])
  /\ (forall status,
        Api.current_team faults (db w) user = Api.Err status ->
        show_team faults w user
        = ([ApiErr (Api.GetCurrentTeam user) status; Log ERROR], [])).
Proof.
  unfold show_team.
  destruct (Api.current_team faults (db w) user) as [team|st]; cbn [snd].
  - split; [split; [eauto|discriminate]|].
    split; [simpl; lia|]. split; [|discriminate].
    intros embed ephemeral [[= <- <-]|[]]. split; [reflexivity|].
    exists team. auto.
  - split; [split; [congruence|intros [? ?]; discriminate]|].
    split; [simpl; lia|]. split; [intros ? ? []|].
    intros status [= <-]. reflexivity.
Qed.

Lemma show_team_answers_only_on_success_witness :
  show_team (fun _ => Some 404) Sample.world 1
  = ([ApiErr (Api.GetCurrentTeam 1) 404; Log ERROR], []).
Proof.
  exact (proj2 (proj2 (proj2 (show_team_answers_only_on_success
                                (fun _ => Some 404) Sample.world 1)))
               404 eq_refl).
Defined.
